(** * Waterford Wave API server: the handlers of [src/index.ts]

    A shallow embedding of the Express application of [src/index.ts]: the
    [/health] and [/] request handlers, the [shutdown] signal handler
    and the [PORT] constant, together with the parts of the JavaScript
    platform they call ([parseInt], [Date.prototype.toISOString],
    [res.json], promises that fulfil or reject).

    Handlers are written in a small free monad [async] whose nodes are
    the calls the source makes; [await] points are explicit, so the same
    program text is given a sequential semantics ([run]) and an
    event-loop semantics ([exec]) in which signals may arrive while a
    promise is pending. *)

From Stdlib Require Import ZArith Bool List String Ascii Lia PrimFloat.
Import ListNotations.

Local Open Scope string_scope.
Local Open Scope Z_scope.

(** ** JavaScript values used by the program *)

Module JS.

(** An exception value ([e : unknown] in the source); only its message
    is kept. *)
Definition error := string.

(** How a promise settles. *)
Inductive settled : Type :=
| Fulfilled
| Rejected (e : error).

(** The result of [parseInt]: [NaN], or the integer that was read.
    (The final rounding to a double is the identity below 2^53, and
    the sign of zero is not tracked.) *)
Inductive number : Type :=
| NaN
| Int (n : Z).

(** Values of the fields of the object literals passed to [res.json].
    Numbers are IEEE-754 doubles. An object keeps its fields in
    insertion order. *)
Inductive jvalue : Type :=
| JStr (s : string)
| JNum (x : float).

Definition json := list (string * jvalue).

Fixpoint get (k : string) (o : json) : option jvalue :=
  match o with
  | [] => None
  | (k', v) :: o' => if String.eqb k k' then Some v else get k o'
  end.

(** *** [a || b] on [string | undefined]

    [undefined] and the empty string are the falsy values of that type. *)
Definition or_else (a : option string) (b : string) : string :=
  match a with
  | None => b
  | Some EmptyString => b
  | Some s => s
  end.

(** *** [parseInt(string, radix)]  (ECMAScript 19.2.5)

    A character is a code unit below 256; [radix] is the radix after its
    conversion to a 32-bit integer. *)
Definition code (c : ascii) : Z := Z.of_nat (nat_of_ascii c).

Definition is_white_space (c : ascii) : bool :=
  let n := code c in
  ((9 <=? n) && (n <=? 13)) || (n =? 32) || (n =? 160).

Fixpoint trim_start (s : string) : string :=
  match s with
  | String c s' => if is_white_space c then trim_start s' else s
  | EmptyString => EmptyString
  end.

(** The value of an alphanumeric character as a digit, 0..35. *)
Definition digit_of (c : ascii) : option Z :=
  let n := code c in
  if (48 <=? n) && (n <=? 57) then Some (n - 48)
  else if (97 <=? n) && (n <=? 122) then Some (n - 87)
  else if (65 <=? n) && (n <=? 90) then Some (n - 55)
  else None.

(** Reads the longest prefix of radix-[R] digits; [acc] is [None] until
    a digit has been read. *)
Fixpoint read_digits (R : Z) (acc : option Z) (s : string) : option Z :=
  match s with
  | String c s' =>
      match digit_of c with
      | Some d =>
          if d <? R
          then read_digits R (Some (R * match acc with Some a => a | None => 0 end + d)) s'
          else acc
      | None => acc
      end
  | EmptyString => acc
  end.

Definition strip_sign (s : string) : Z * string :=
  match s with
  | String c s' =>
      if Ascii.eqb c "-" then (-1, s')
      else if Ascii.eqb c "+" then (1, s')
      else (1, s)
  | EmptyString => (1, s)
  end.

Definition strip_hex_prefix (s : string) : option string :=
  match s with
  | String z (String x s') =>
      if Ascii.eqb z "0" && (Ascii.eqb x "x" || Ascii.eqb x "X")
      then Some s' else None
  | _ => None
  end.

Definition parseInt (s : string) (radix : Z) : number :=
  let (sign, body) := strip_sign (trim_start s) in
  if (radix =? 0) || (radix =? 16) then
    let (R, body') :=
      match strip_hex_prefix body with
      | Some b => (16, b)
      | None => ((if radix =? 0 then 10 else 16), body)
      end in
    match read_digits R None body' with
    | Some n => Int (sign * n)
    | None => NaN
    end
  else if (radix <? 2) || (36 <? radix) then NaN
  else
    match read_digits radix None body with
    | Some n => Int (sign * n)
    | None => NaN
    end.

Definition is_decimal_digit (c : ascii) : bool :=
  (48 <=? code c) && (code c <=? 57).

Fixpoint no_decimal_digit (s : string) : bool :=
  match s with
  | String c s' => negb (is_decimal_digit c) && no_decimal_digit s'
  | EmptyString => true
  end.




(** *** [new Date().toISOString()]  (ECMAScript 21.4)

    A time value is an integral number of milliseconds since the epoch,
    at most 8.64e15 in absolute value; [new Date()] always holds one. *)
Definition msPerDay : Z := 86400000.
Definition maxTime : Z := 8640000000000000.

Record time_value : Type := TimeValue {
  ms : Z;
  ms_in_range : (Z.abs ms <=? maxTime) = true
}.

Definition Day (t : Z) : Z := t / msPerDay.
Definition HourFromTime (t : Z) : Z := (t / 3600000) mod 24.
Definition MinFromTime (t : Z) : Z := (t / 60000) mod 60.
Definition SecFromTime (t : Z) : Z := (t / 1000) mod 60.
Definition msFromTime (t : Z) : Z := t mod 1000.

(** Day number to proleptic Gregorian date. Days are recounted from
    March 1st of year 0, so that the leap day ends a year: cycles of
    400, 100, 4 and 1 years are peeled off in turn. *)
Record civil : Type := Civil { year : Z; month : Z; date : Z }.

Definition civil_from_days (days : Z) : civil :=
  let z := days + 719468 in
  let n400 := z / 146097 in
  let d1 := z mod 146097 in
  let n100 := Z.min (d1 / 36524) 3 in
  let d2 := d1 - 36524 * n100 in
  let n4 := d2 / 1461 in
  let d3 := d2 mod 1461 in
  let n1 := Z.min (d3 / 365) 3 in
  let doy := d3 - 365 * n1 in
  let mp := (5 * doy + 2) / 153 in
  let m := if mp <? 10 then mp + 3 else mp - 9 in
  let y := 400 * n400 + 100 * n100 + 4 * n4 + n1 in
  {| year := if m <=? 2 then y + 1 else y;
     month := m;
     date := doy - (153 * mp + 2) / 5 + 1 |}.

Definition digit (d : Z) : ascii := ascii_of_nat (48 + Z.to_nat d).

(** [pad w n rest]: the [w] low decimal digits of [n], most significant
    first, in front of [rest]. *)
Fixpoint pad (w : nat) (n : Z) (rest : string) : string :=
  match w with
  | O => rest
  | S w' => pad w' (n / 10) (String (digit (n mod 10)) rest)
  end.

(** Years 0..9999 take four digits, the others a sign and six digits. *)
Definition year_string (y : Z) (rest : string) : string :=
  if (0 <=? y) && (y <=? 9999) then pad 4 y rest
  else String (if y <? 0 then "-"%char else "+"%char) (pad 6 (Z.abs y) rest).

Definition toISOString (d : time_value) : string :=
  let t := ms d in
  let c := civil_from_days (Day t) in
  year_string (year c)
    (String "-" (pad 2 (month c)
    (String "-" (pad 2 (date c)
    (String "T" (pad 2 (HourFromTime t)
    (String ":" (pad 2 (MinFromTime t)
    (String ":" (pad 2 (SecFromTime t)
    (String "." (pad 3 (msFromTime t) "Z")))))))))))).

(** *** The ISO-8601 shape that ECMAScript calls the date-time string
    format: [YYYY-MM-DDTHH:mm:ss.sssZ], or with an expanded year
    [+YYYYYY] / [-YYYYYY]; every field within its calendar range. *)
Definition digit_value (c : ascii) : Z := code c - 48.

Fixpoint take_digits (w : nat) (acc : Z) (s : string) : option (Z * string) :=
  match w with
  | O => Some (acc, s)
  | S w' =>
      match s with
      | String c s' =>
          if is_decimal_digit c
          then take_digits w' (10 * acc + digit_value c) s'
          else None
      | EmptyString => None
      end
  end.

Definition expect (c : ascii) (s : string) : option string :=
  match s with
  | String c' s' => if Ascii.eqb c c' then Some s' else None
  | EmptyString => None
  end.

(** A field of [w] digits with a value in [lo..hi], followed by [sep]. *)
Definition field_then (w : nat) (lo hi : Z) (sep : ascii) (s : string)
  : option string :=
  match take_digits w 0 s with
  | Some (v, s') => if (lo <=? v) && (v <=? hi) then expect sep s' else None
  | None => None
  end.

Definition opt_bind {A B} (o : option A) (f : A -> option B) : option B :=
  match o with
  | Some a => f a
  | None => None
  end.

Definition year_then_dash (s : string) : option string :=
  match s with
  | String c s' =>
      if Ascii.eqb c "+" || Ascii.eqb c "-"
      then field_then 6 0 999999 "-" s'
      else field_then 4 0 9999 "-" s
  | EmptyString => None
  end.

Definition is_iso8601 (s : string) : bool :=
  match
    opt_bind (year_then_dash s) (fun s =>
    opt_bind (field_then 2 1 12 "-" s) (fun s =>
    opt_bind (field_then 2 1 31 "T" s) (fun s =>
    opt_bind (field_then 2 0 23 ":" s) (fun s =>
    opt_bind (field_then 2 0 59 ":" s) (fun s =>
    opt_bind (field_then 2 0 59 "." s) (fun s =>
    field_then 3 0 999 "Z" s))))))
  with
  | Some EmptyString => true
  | _ => false
  end.

End JS.


(** ** The server of [src/index.ts] *)

Module Server.
Import JS.

(** *** Calls made by the handlers *)

(** Calls whose promise the source awaits. [prisma] is the client that
    [./db.js] exports; how its promises settle is up to the world. *)
Inductive request : Type :=
| prisma_queryRaw (sql : string)
| prisma_disconnect.

(** Synchronous calls, indexed by the type of their result. *)
Inductive call : Type -> Type :=
| console_log (text : string) : call unit
| console_error (text : string) (e : error) : call unit
| process_uptime : call float
| new_Date : call time_value
| res_json (o : json) : call unit.

(** An [async] function body: a tree of calls. [Await] is a suspension
    point; [Exit] is [process.exit], which does not return. *)
Inductive async (A : Type) : Type :=
| Ret (a : A)
| Throw (e : error)
| Do {X : Type} (c : call X) (k : X -> async A)
| Await (r : request) (k : settled -> async A)
| Exit (code : Z).

Arguments Ret {A} a.
Arguments Throw {A} e.
Arguments Do {A X} c k.
Arguments Await {A} r k.
Arguments Exit {A} code.

Fixpoint bind {A B : Type} (m : async A) (f : A -> async B) : async B :=
  match m with
  | Ret a => f a
  | Throw e => Throw e
  | Do c k => Do c (fun x => bind (k x) f)
  | Await r k => Await r (fun s => bind (k s) f)
  | Exit code => Exit code
  end.

(** [try { m } catch (e) { h e }] *)
Fixpoint try_catch {A : Type} (m : async A) (h : error -> async A) : async A :=
  match m with
  | Ret a => Ret a
  | Throw e => h e
  | Do c k => Do c (fun x => try_catch (k x) h)
  | Await r k => Await r (fun s => try_catch (k s) h)
  | Exit code => Exit code
  end.

Definition do {X : Type} (c : call X) : async X := Do c Ret.

(** [await r]: resumes with the fulfilment, or throws the rejection. *)
Definition await (r : request) : async unit :=
  Await r (fun s => match s with
                    | Fulfilled => Ret tt
                    | Rejected e => Throw e
                    end).

Definition process_exit (code : Z) : async unit := Exit code.

Declare Scope async_scope.
Delimit Scope async_scope with async.
Bind Scope async_scope with async.
Notation "x <- m ;; k" := (bind m (fun x => k))
  (at level 61, m at next level, right associativity) : async_scope.
Notation "m ;; k" := (bind m (fun _ => k))
  (at level 61, right associativity) : async_scope.
Local Open Scope async_scope.

(** *** The program *)

(** [const PORT = parseInt(process.env.PORT || "8080", 10)], as a
    function of the environment variable. *)
Definition PORT (env_PORT : option string) : number :=
  parseInt (or_else env_PORT "8080") 10.

(** [app.get("/health", async (_req, res) => ...)]. The variable [dbOk]
    is threaded through the [try] statement. *)
Definition health : async unit :=
  let dbOk := false in
  dbOk <- try_catch
            (await (prisma_queryRaw "SELECT 1") ;;
             Ret true)
            (fun e =>
               do (console_error "DB check failed:" e) ;;
               Ret dbOk) ;;
  up <- do process_uptime ;;
  now <- do new_Date ;;
  do (res_json [ ("status", JStr (if dbOk : bool then "healthy" else "degraded"));
                 ("uptime", JNum up);
                 ("timestamp", JStr (toISOString now)) ]).

(** [app.get("/", (_req, res) => ...)] *)
Definition root : async unit :=
  do (res_json [ ("service", JStr "API Server");
                 ("status", JStr "running");
                 ("version", JStr "1.0.0") ]).

Definition shutdown_banner : string := String "010" "🛑 Shutting down...".

(** [const shutdown = async () => ...] *)
Definition shutdown : async unit :=
  do (console_log shutdown_banner) ;;
  await prisma_disconnect ;;
  process_exit 0.

Inductive signal : Type := SIGTERM | SIGINT.

(** [process.on("SIGTERM", shutdown); process.on("SIGINT", shutdown)] *)
Definition on_signal (sg : signal) : async unit :=
  match sg with
  | SIGTERM => shutdown
  | SIGINT => shutdown
  end.

Inductive route : Type := GET_health | GET_root.

Definition handler (r : route) : async unit :=
  match r with
  | GET_health => health
  | GET_root => root
  end.

(** *** The world the program runs in *)

Inductive db_state : Type :=
| Reachable
| Unreachable (why : error).

(** What Node does with a rejected promise nobody handles
    ([--unhandled-rejections]): [Crash] raises it as an uncaught
    exception and the process dies with code 1 (mode [throw], the default
    since Node 15); [Warn] prints a warning and the process goes on. *)
Inductive rejection_policy : Type := Crash | Warn.

(** Side effects visible outside the process, other than responses. *)
Inductive event : Type :=
| Logged (text : string)
| LoggedError (text : string) (e : error)
| Requested (r : request)
| UnhandledRejection (e : error)
| ProcessExit (code : Z).

Record world : Type := World {
  database : db_state;      (* answers the probe query *)
  pool_release : settled;   (* how releasing the pool ends *)
  uptime : float;           (* seconds since process start, one reading *)
  clock : time_value;       (* wall clock, one reading *)
  on_unhandled : rejection_policy;
  history : list event      (* effects so far, oldest first *)
}.

(** [res.json] writes the body with [res.statusCode], which Node sets to
    200 and the program never changes. *)
Record http_response : Type := Response {
  statusCode : Z;
  body : json
}.

Record state : Type := State {
  env : world;
  sent : list http_response
}.

(** The world after further effects. *)
Definition logged (evs : list event) (w : world) : world :=
  {| database := database w; pool_release := pool_release w;
     uptime := uptime w; clock := clock w;
     on_unhandled := on_unhandled w;
     history := history w ++ evs |}.

Definition record (ev : event) (s : state) : state :=
  {| env := logged [ev] (env s); sent := sent s |}.

Definition perform {X : Type} (c : call X) (s : state) : state * X :=
  match c in call X return state * X with
  | console_log text => (record (Logged text) s, tt)
  | console_error text e => (record (LoggedError text e) s, tt)
  | process_uptime => (s, uptime (env s))
  | new_Date => (s, clock (env s))
  | res_json o =>
      ({| env := env s; sent := sent s ++ [{| statusCode := 200; body := o |}] |}, tt)
  end.

(** How the awaited promise of a request settles in a given world. *)
Definition answer (w : world) (r : request) : settled :=
  match r with
  | prisma_queryRaw _ =>
      match database w with
      | Reachable => Fulfilled
      | Unreachable why => Rejected why
      end
  | prisma_disconnect => pool_release w
  end.

(** *** Sequential semantics: one handler, run to its end; every awaited
    promise settles as the world dictates before anything else happens. *)
Inductive outcome (A : Type) : Type :=
| Returned (a : A)
| Threw (e : error)      (* the promise of the async function rejects *)
| Exited (code : Z).

Arguments Returned {A} a.
Arguments Threw {A} e.
Arguments Exited {A} code.

Fixpoint run {A : Type} (p : async A) (s : state) : state * outcome A :=
  match p with
  | Ret a => (s, Returned a)
  | Throw e => (s, Threw e)
  | Do c k => let (s', x) := perform c s in run (k x) s'
  | Await r k => run (k (answer (env s) r)) (record (Requested r) s)
  | Exit code => (record (ProcessExit code) s, Exited code)
  end.

(** A request served in world [w]: nothing written yet. *)
Definition serve (r : route) (w : world) : state * outcome unit :=
  run (handler r) {| env := w; sent := [] |}.

(** A signal delivered in world [w]. *)
Definition deliver (sg : signal) (w : world) : state * outcome unit :=
  run (on_signal sg) {| env := w; sent := [] |}.

Definition events_since (w : world) (s : state) : list event :=
  skipn (List.length (history w)) (history (env s)).

(** *** Event-loop semantics: handlers run up to their next [await] and
    are parked there; signals and requests may arrive in between. *)
Record process : Type := Process {
  st : state;
  parked : list (settled -> async unit);   (* handlers suspended at an await *)
  exit_code : option Z                     (* set once the process is gone *)
}.

(** A handler's promise rejects and nothing handles it. *)
Definition unhandled (e : error) (P : process) : process :=
  match on_unhandled (env (st P)) with
  | Crash =>
      {| st := record (UnhandledRejection e) (st P);
         parked := []; exit_code := Some 1 |}
  | Warn =>
      {| st := record (UnhandledRejection e) (st P);
         parked := parked P; exit_code := exit_code P |}
  end.

Fixpoint advance (p : async unit) (P : process) : process :=
  match p with
  | Ret _ => P
  | Throw e => unhandled e P
  | Do c k =>
      let (s', x) := perform c (st P) in
      advance (k x) {| st := s'; parked := parked P; exit_code := exit_code P |}
  | Await r k =>
      {| st := record (Requested r) (st P);
         parked := parked P ++ [k]; exit_code := exit_code P |}
  | Exit code =>
      {| st := record (ProcessExit code) (st P);
         parked := []; exit_code := Some code |}
  end.

Inductive tick : Type :=
| Signal (sg : signal)
| Incoming (r : route)
| Settle (i : nat) (s : settled).   (* the [i]-th pending promise settles *)

Fixpoint remove_nth {A : Type} (i : nat) (l : list A) : list A :=
  match l, i with
  | [], _ => []
  | _ :: l', O => l'
  | a :: l', S i' => a :: remove_nth i' l'
  end.

Definition step (P : process) (t : tick) : process :=
  match exit_code P with
  | Some _ => P
  | None =>
      match t with
      | Signal sg => advance (on_signal sg) P
      | Incoming r => advance (handler r) P
      | Settle i s =>
          match nth_error (parked P) i with
          | Some k =>
              advance (k s)
                {| st := st P; parked := remove_nth i (parked P);
                   exit_code := exit_code P |}
          | None => P
          end
      end
  end.

Definition exec (ticks : list tick) (P : process) : process :=
  fold_left step ticks P.

Definition boot (w : world) : process :=
  {| st := {| env := w; sent := [] |}; parked := []; exit_code := None |}.

(** *** Observations on histories *)

Definition is_request (ev : event) : bool :=
  match ev with
  | Requested _ => true
  | _ => false
  end.

Definition is_disconnect (ev : event) : bool :=
  match ev with
  | Requested prisma_disconnect => true
  | _ => false
  end.

Definition is_exit (ev : event) : bool :=
  match ev with
  | ProcessExit _ => true
  | _ => false
  end.

Definition is_unhandled (ev : event) : bool :=
  match ev with
  | UnhandledRejection _ => true
  | _ => false
  end.

Definition count (f : event -> bool) (l : list event) : nat :=
  List.length (filter f l).

(** Every exit in the list has code 0 and comes after a release of the
    pool was requested ([seen]: one was requested before the list). *)
Fixpoint exits_follow_release (seen : bool) (l : list event) : bool :=
  match l with
  | [] => true
  | ProcessExit code :: l' => seen && (code =? 0) && exits_follow_release seen l'
  | ev :: l' => exits_follow_release (seen || is_disconnect ev) l'
  end.

(** The probe of the health check. *)
Definition probe : request := prisma_queryRaw "SELECT 1".

(** The object literal of the health response. *)
Definition health_body (ok : bool) (w : world) : json :=
  [ ("status", JStr (if ok then "healthy" else "degraded"));
    ("uptime", JNum (uptime w));
    ("timestamp", JStr (toISOString (clock w))) ].

(** *** Suspended handlers, by what they do when resumed

    [releases k]: [k] is [shutdown] waiting for the pool to be released;
    [replies k]: [k] is [health] waiting for the probe. *)
Definition releases (k : settled -> async unit) : Prop :=
  forall (s : settled) (P : process),
    advance (k s) P =
    match s with
    | Fulfilled =>
        {| st := record (ProcessExit 0) (st P); parked := []; exit_code := Some 0 |}
    | Rejected e => unhandled e P
    end.

Definition replies (k : settled -> async unit) : Prop :=
  forall (s : settled) (P : process),
    advance (k s) P =
    {| st := {| env := logged match s with
                              | Fulfilled => []
                              | Rejected e => [LoggedError "DB check failed:" e]
                              end (env (st P));
                sent := sent (st P) ++
                        [ {| statusCode := 200;
                             body := health_body match s with
                                                 | Fulfilled => true
                                                 | Rejected _ => false
                                                 end (env (st P)) |} ] |};
       parked := parked P; exit_code := exit_code P |}.

(** The invariant of the event loop booted in [w]: the history grew by
    [evs], in which exits follow a release request, and a suspended
    [shutdown] implies that the release was requested. *)
Definition sound (w : world) (P : process) : Prop :=
  exists evs : list event,
    env (st P) = logged evs w /\
    exits_follow_release false evs = true /\
    Forall (fun k => replies k \/
                     (releases k /\ existsb is_disconnect evs = true))
           (parked P).

(** *** Two concrete worlds in which releasing the pool fails *)
Definition stuck_world : world :=
  {| database := Reachable;
     pool_release := Rejected "pool is busy";
     uptime := 12.5%float;
     clock := TimeValue 1793685600123 eq_refl;
     on_unhandled := Warn;
     history := [] |}.

Definition crashing_world : world :=
  {| database := Unreachable "connection refused";
     pool_release := Rejected "pool is busy";
     uptime := 3600%float;
     clock := TimeValue 1793685600123 eq_refl;
     on_unhandled := Crash;
     history := [] |}.

End Server.

(** ** Start-up: the callback of [app.listen] *)

Module Startup.
Import JS Server.
Local Open Scope async_scope.

(** The decimal numeral of a natural number, least significant digit
    first into [rest]; [fuel] bounds the number of further digits. *)
Fixpoint decimal_fuel (fuel : nat) (n : Z) (rest : string) : string :=
  let rest' := String (digit (n mod 10)) rest in
  match fuel with
  | O => rest'
  | S fuel' => if n <? 10 then rest' else decimal_fuel fuel' (n / 10) rest'
  end.

Definition decimal (n : Z) : string :=
  decimal_fuel (Z.to_nat (Z.log2 n)) n "".

(** [`${x}`] for a number: [Number::toString] in radix 10, on [NaN] and on
    integers (below 10^21 in absolute value, where no exponent is
    written). *)
Definition Number_toString (x : number) : string :=
  match x with
  | NaN => "NaN"
  | Int n => if n <? 0 then String "-" (decimal (- n)) else decimal n
  end.

Definition newline : string := String "010" "".

(** The callback passed to [app.listen(PORT, "0.0.0.0", ...)], run once
    the server is listening on [port]. *)
Definition listening (port : number) : async unit :=
  do (console_log (newline ++ "🚀 API Server")) ;;
  do (console_log ("🌐 HTTP: http://0.0.0.0:" ++ Number_toString port)) ;;
  do (console_log ("💚 Health: http://0.0.0.0:" ++ Number_toString port
                   ++ "/health" ++ newline)).

(** The ports a server can listen on. *)
Definition is_port (x : number) : bool :=
  match x with
  | NaN => false
  | Int n => (0 <=? n) && (n <=? 65535)
  end.

Fixpoint all_white_space (s : string) : bool :=
  match s with
  | String c s' => is_white_space c && all_white_space s'
  | EmptyString => true
  end.

(** [s] is empty or starts with something that is not a decimal digit. *)
Definition no_digit_ahead (s : string) : bool :=
  match s with
  | String c _ => negb (is_decimal_digit c)
  | EmptyString => true
  end.

End Startup.

(** ** A ledger of the event loop

    What an execution has done so far, without the suspended closures:
    the events added, the kind of each suspended handler, the responses
    written and the exit code. [lstep] is the event loop read on
    ledgers; the facts below show that it tracks [step]. *)

Module Ledger.
Import JS Server.

Inductive kind : Type :=
| Probe       (* [health], waiting for its query *)
| Release.    (* [shutdown], waiting for the pool *)

Definition kind_ok (kd : kind) (k : settled -> async unit) : Prop :=
  match kd with
  | Probe => replies k
  | Release => releases k
  end.

Definition is_probe (kd : kind) : bool :=
  match kd with
  | Probe => true
  | Release => false
  end.

Definition root_response : http_response :=
  {| statusCode := 200;
     body := [ ("service", JStr "API Server");
               ("status", JStr "running");
               ("version", JStr "1.0.0") ] |}.

Definition health_response (ok : bool) (w : world) : http_response :=
  {| statusCode := 200; body := health_body ok w |}.

Definition fulfilled (s : settled) : bool :=
  match s with
  | Fulfilled => true
  | Rejected _ => false
  end.

Record ledger : Type := Ledger {
  grown : list event;              (* events added since boot *)
  waiting : list kind;             (* suspended handlers, oldest first *)
  written : list http_response;    (* responses, oldest first *)
  ended : option Z                 (* exit code *)
}.

Definition opening : ledger :=
  {| grown := []; waiting := []; written := []; ended := None |}.

Definition lstep (w : world) (L : ledger) (t : tick) : ledger :=
  match ended L with
  | Some _ => L
  | None =>
      match t with
      | Signal _ =>
          {| grown := grown L ++ [Logged shutdown_banner; Requested prisma_disconnect];
             waiting := waiting L ++ [Release];
             written := written L; ended := None |}
      | Incoming GET_health =>
          {| grown := grown L ++ [Requested probe];
             waiting := waiting L ++ [Probe];
             written := written L; ended := None |}
      | Incoming GET_root =>
          {| grown := grown L; waiting := waiting L;
             written := written L ++ [root_response]; ended := None |}
      | Settle i s =>
          match nth_error (waiting L) i with
          | None => L
          | Some Probe =>
              {| grown := grown L ++
                          match s with
                          | Fulfilled => []
                          | Rejected e => [LoggedError "DB check failed:" e]
                          end;
                 waiting := remove_nth i (waiting L);
                 written := written L ++ [health_response (fulfilled s) w];
                 ended := None |}
          | Some Release =>
              match s with
              | Fulfilled =>
                  {| grown := grown L ++ [ProcessExit 0]; waiting := [];
                     written := written L; ended := Some 0 |}
              | Rejected e =>
                  match on_unhandled w with
                  | Crash =>
                      {| grown := grown L ++ [UnhandledRejection e]; waiting := [];
                         written := written L; ended := Some 1 |}
                  | Warn =>
                      {| grown := grown L ++ [UnhandledRejection e];
                         waiting := remove_nth i (waiting L);
                         written := written L; ended := None |}
                  end
              end
          end
      end
  end.

Definition lexec (w : world) (ticks : list tick) (L : ledger) : ledger :=
  fold_left (lstep w) ticks L.

(** [L] describes the process [P] booted in [w]. *)
Definition represents (w : world) (L : ledger) (P : process) : Prop :=
  env (st P) = logged (grown L) w /\
  sent (st P) = written L /\
  Forall2 kind_ok (waiting L) (parked P) /\
  exit_code P = ended L.

(** *** Counting what arrived *)

Definition is_signal (t : tick) : bool :=
  match t with
  | Signal _ => true
  | _ => false
  end.

Definition is_incoming (t : tick) : bool :=
  match t with
  | Incoming _ => true
  | _ => false
  end.

Definition is_health_request (t : tick) : bool :=
  match t with
  | Incoming GET_health => true
  | _ => false
  end.

Definition is_fulfilment (t : tick) : bool :=
  match t with
  | Settle _ Fulfilled => true
  | _ => false
  end.

Definition tally (f : tick -> bool) (ticks : list tick) : nat :=
  List.length (filter f ticks).

Definition is_query (ev : event) : bool :=
  match ev with
  | Requested (prisma_queryRaw _) => true
  | _ => false
  end.

End Ledger.

(** ** Reading a timestamp back *)

Module Timestamp.
Import JS.

(** Proleptic Gregorian date to day number, the inverse of
    [civil_from_days]. *)
Definition days_from_civil (c : civil) : Z :=
  let y := if month c <=? 2 then year c - 1 else year c in
  let era := y / 400 in
  let yoe := y mod 400 in
  let mp := if month c <=? 2 then month c + 9 else month c - 3 in
  let doy := (153 * mp + 2) / 5 + date c - 1 in
  let doe := 365 * yoe + yoe / 4 - yoe / 100 + doy in
  146097 * era + doe - 719468.

(** A field of [w] digits followed by [sep]: its value and what follows. *)
Definition read_field (w : nat) (sep : ascii) (s : string) : option (Z * string) :=
  match take_digits w 0 s with
  | Some (v, s') =>
      match expect sep s' with
      | Some s'' => Some (v, s'')
      | None => None
      end
  | None => None
  end.

Definition read_year (s : string) : option (Z * string) :=
  match s with
  | String c s' =>
      if Ascii.eqb c "+" then read_field 6 "-" s'
      else if Ascii.eqb c "-" then
        match read_field 6 "-" s' with
        | Some (v, s'') => Some (- v, s'')
        | None => None
        end
      else read_field 4 "-" s
  | EmptyString => None
  end.

(** The time value written in the format of [toISOString]. *)
Definition fromISOString (s : string) : option Z :=
  opt_bind (read_year s) (fun '(y, s) =>
  opt_bind (read_field 2 "-" s) (fun '(mo, s) =>
  opt_bind (read_field 2 "T" s) (fun '(d, s) =>
  opt_bind (read_field 2 ":" s) (fun '(h, s) =>
  opt_bind (read_field 2 ":" s) (fun '(mi, s) =>
  opt_bind (read_field 2 "." s) (fun '(sec, s) =>
  opt_bind (read_field 3 "Z" s) (fun '(msec, s) =>
  match s with
  | EmptyString =>
      Some (msPerDay * days_from_civil {| year := y; month := mo; date := d |}
            + 3600000 * h + 60000 * mi + 1000 * sec + msec)
  | _ => None
  end))))))).

End Timestamp.


(** * Facts *)

Import JS Server.
Local Open Scope list_scope.

(** ** The platform functions *)

Example parseInt_decimal : parseInt "8080" 10 = Int 8080.
Proof. reflexivity. Qed.

Example parseInt_stops_at_first_non_digit : parseInt "  -42px" 10 = Int (-42).
Proof. reflexivity. Qed.

Example parseInt_no_hex_prefix_in_radix_10 : parseInt "0x1F" 10 = Int 0.
Proof. reflexivity. Qed.

Example parseInt_hex : parseInt "0x1F" 16 = Int 31 /\ parseInt "ff" 16 = Int 255.
Proof. split; reflexivity. Qed.

Example parseInt_empty : parseInt "" 10 = NaN.
Proof. reflexivity. Qed.

Example toISOString_epoch :
  toISOString (TimeValue 0 eq_refl) = "1970-01-01T00:00:00.000Z".
Proof. reflexivity. Qed.

Example toISOString_before_epoch :
  toISOString (TimeValue (-1) eq_refl) = "1969-12-31T23:59:59.999Z".
Proof. reflexivity. Qed.

Example toISOString_leap_day :
  toISOString (TimeValue 951782400000 eq_refl) = "2000-02-29T00:00:00.000Z" /\
  toISOString (TimeValue 1709251199999 eq_refl) = "2024-02-29T23:59:59.999Z".
Proof. split; reflexivity. Qed.

Example toISOString_billion_seconds :
  toISOString (TimeValue 1000000000000 eq_refl) = "2001-09-09T01:46:40.000Z".
Proof. reflexivity. Qed.

Example toISOString_expanded_years :
  toISOString (TimeValue 8640000000000000 eq_refl) = "+275760-09-13T00:00:00.000Z" /\
  toISOString (TimeValue (-8640000000000000) eq_refl) = "-271821-04-20T00:00:00.000Z" /\
  toISOString (TimeValue 253402300800000 eq_refl) = "+010000-01-01T00:00:00.000Z" /\
  toISOString (TimeValue (-62198755200000) eq_refl) = "-000001-01-01T00:00:00.000Z".
Proof. repeat split; reflexivity. Qed.

Example is_iso8601_rejects :
  is_iso8601 "2099-13-31T23:59:59.999Z" = false /\
  is_iso8601 "2099-12-31 23:59:59.999Z" = false /\
  is_iso8601 "2099-12-31T23:59:59Z" = false.
Proof. repeat split; reflexivity. Qed.

(** *** Decimal digits *)

Lemma digit_cases (d : Z) : 0 <= d < 10 ->
  d = 0 \/ d = 1 \/ d = 2 \/ d = 3 \/ d = 4 \/
  d = 5 \/ d = 6 \/ d = 7 \/ d = 8 \/ d = 9.
Proof. lia. Qed.

Ltac by_digit d H :=
  let C := fresh in
  pose proof (digit_cases d H) as C;
  repeat (destruct C as [C | C]; [subst d; reflexivity | ]);
  subst d; reflexivity.

Lemma digit_is_decimal (d : Z) (H : 0 <= d < 10) :
  is_decimal_digit (digit d) = true.
Proof. by_digit d H. Qed.

Lemma digit_value_digit (d : Z) (H : 0 <= d < 10) :
  digit_value (digit d) = d.
Proof. by_digit d H. Qed.

Lemma digit_not_sign (d : Z) (H : 0 <= d < 10) :
  Ascii.eqb (digit d) "+" || Ascii.eqb (digit d) "-" = false.
Proof. by_digit d H. Qed.

(** Reading back [w] digits written by [pad]. *)
Lemma take_digits_pad (w : nat) : forall (k : nat) (n acc : Z) (rest : string),
  0 <= n < 10 ^ Z.of_nat w ->
  take_digits (w + k) acc (pad w n rest)
  = take_digits k (acc * 10 ^ Z.of_nat w + n) rest.
Proof.
  induction w as [|w IH]; intros k n acc rest Hn.
  - cbn. f_equal. change (10 ^ Z.of_nat 0) with 1 in *. lia.
  - rewrite Nat2Z.inj_succ, Z.pow_succ_r in * by lia.
    cbn [pad]. replace (S w + k)%nat with (w + S k)%nat by lia.
    rewrite IH
      by (split; [apply Z.div_pos; lia | apply Z.div_lt_upper_bound; lia]).
    cbn [take_digits].
    assert (Hd : 0 <= n mod 10 < 10) by (apply Z.mod_pos_bound; lia).
    rewrite digit_is_decimal, digit_value_digit by exact Hd.
    f_equal. pose proof (Z.div_mod n 10). lia.
Qed.

Lemma field_then_pad (w : nat) (lo hi n : Z) (sep : ascii) (rest : string) :
  0 <= n < 10 ^ Z.of_nat w -> lo <= n <= hi ->
  field_then w lo hi sep (pad w n (String sep rest)) = Some rest.
Proof.
  intros Hn Hr. unfold field_then.
  replace w with (w + 0)%nat at 1 by lia.
  rewrite take_digits_pad by exact Hn. cbn [take_digits].
  replace (0 * 10 ^ Z.of_nat w + n) with n by lia.
  replace ((lo <=? n) && (n <=? hi)) with true
    by (symmetry; apply andb_true_iff; split; apply Z.leb_le; lia).
  cbn. now rewrite Ascii.eqb_refl.
Qed.

(** *** Calendar fields stay in range *)

Lemma civil_month_date (days : Z) :
  1 <= month (civil_from_days days) <= 12 /\
  1 <= date (civil_from_days days) <= 31.
Proof.
  unfold civil_from_days. cbv zeta. cbn [month date].
  set (z := days + 719468).
  set (d1 := z mod 146097).
  assert (H1 : 0 <= d1 < 146097) by (apply Z.mod_pos_bound; lia).
  set (n100 := Z.min (d1 / 36524) 3).
  set (d2 := d1 - 36524 * n100).
  assert (H2 : 0 <= d2 <= 36524).
  { subst d2 n100. pose proof (Z.div_mod d1 36524).
    pose proof (Z.mod_pos_bound d1 36524). lia. }
  set (d3 := d2 mod 1461).
  assert (H3 : 0 <= d3 < 1461) by (apply Z.mod_pos_bound; lia).
  set (n1 := Z.min (d3 / 365) 3).
  set (doy := d3 - 365 * n1).
  assert (H4 : 0 <= doy <= 365).
  { subst doy n1. pose proof (Z.div_mod d3 365).
    pose proof (Z.mod_pos_bound d3 365). lia. }
  clearbody doy. clear - H4.
  set (mp := (5 * doy + 2) / 153).
  assert (Hmp : 0 <= mp <= 11).
  { subst mp. split; [apply Z.div_pos; lia | ].
    apply Z.lt_succ_r. apply Z.div_lt_upper_bound; lia. }
  assert (Hlo : 153 * mp <= 5 * doy + 2 < 153 * mp + 153).
  { subst mp. pose proof (Z.div_mod (5 * doy + 2) 153).
    pose proof (Z.mod_pos_bound (5 * doy + 2) 153). lia. }
  clearbody mp.
  pose proof (Z.div_mod (153 * mp + 2) 5).
  pose proof (Z.mod_pos_bound (153 * mp + 2) 5).
  destruct (mp <? 10) eqn:E; [apply Z.ltb_lt in E | apply Z.ltb_ge in E]; lia.
Qed.

Lemma civil_year (days : Z) : -100000000 <= days <= 100000000 ->
  -999999 <= year (civil_from_days days) <= 999999.
Proof.
  intros Hd. unfold civil_from_days. cbv zeta. cbn [year].
  set (z := days + 719468).
  pose proof (Z.div_mod z 146097) as Hz.
  pose proof (Z.mod_pos_bound z 146097) as Hz'.
  set (n400 := z / 146097) in *.
  set (d1 := z mod 146097) in *.
  assert (H1 : 0 <= d1 < 146097) by lia.
  pose proof (Z.div_mod d1 36524) as Hq.
  pose proof (Z.mod_pos_bound d1 36524) as Hq'.
  set (n100 := Z.min (d1 / 36524) 3).
  assert (Hn100 : 0 <= n100 <= 3) by (subst n100; lia).
  set (d2 := d1 - 36524 * n100).
  assert (H2 : 0 <= d2 <= 36524) by (subst d2 n100; lia).
  pose proof (Z.div_mod d2 1461) as Hr.
  pose proof (Z.mod_pos_bound d2 1461) as Hr'.
  set (n4 := d2 / 1461) in *.
  set (d3 := d2 mod 1461) in *.
  pose proof (Z.div_mod d3 365) as Hs.
  pose proof (Z.mod_pos_bound d3 365) as Hs'.
  set (n1 := Z.min (d3 / 365) 3).
  assert (Hn1 : 0 <= n1 <= 3) by (subst n1; lia).
  match goal with
  | |- context [if ?b then _ else _] => destruct b
  end; subst z; lia.
Qed.

Lemma time_fields (t : Z) :
  0 <= HourFromTime t <= 23 /\ 0 <= MinFromTime t <= 59 /\
  0 <= SecFromTime t <= 59 /\ 0 <= msFromTime t <= 999.
Proof.
  unfold HourFromTime, MinFromTime, SecFromTime, msFromTime.
  pose proof (Z.mod_pos_bound (t / 3600000) 24).
  pose proof (Z.mod_pos_bound (t / 60000) 60).
  pose proof (Z.mod_pos_bound (t / 1000) 60).
  pose proof (Z.mod_pos_bound t 1000). lia.
Qed.

Lemma Day_range (d : time_value) : -100000000 <= Day (ms d) <= 100000000.
Proof.
  destruct d as [t Ht]. cbn [ms]. apply Z.leb_le in Ht. unfold maxTime in Ht.
  unfold Day, msPerDay.
  pose proof (Z.div_mod t 86400000).
  pose proof (Z.mod_pos_bound t 86400000). lia.
Qed.

Lemma year_then_dash_year_string (y : Z) (rest : string) :
  -999999 <= y <= 999999 ->
  year_then_dash (year_string y (String "-" rest)) = Some rest.
Proof.
  intros Hy. unfold year_string.
  destruct ((0 <=? y) && (y <=? 9999)) eqn:E.
  - apply andb_true_iff in E. destruct E as [E1 E2]. apply Z.leb_le in E1, E2.
    pose proof (field_then_pad 4 0 9999 y "-" rest) as F.
    cbn [pad] in *. unfold year_then_dash.
    rewrite digit_not_sign.
    + apply F; cbn; lia.
    + apply Z.mod_pos_bound; lia.
  - unfold year_then_dash.
    replace (Ascii.eqb (if y <? 0 then "-"%char else "+"%char) "+"
             || Ascii.eqb (if y <? 0 then "-"%char else "+"%char) "-")
      with true by (destruct (y <? 0); reflexivity).
    apply field_then_pad; cbn; lia.
Qed.

(** The string [toISOString] builds has the ISO-8601 shape, for every
    time value. *)
Lemma toISOString_is_iso8601 (d : time_value) :
  is_iso8601 (toISOString d) = true.
Proof.
  unfold toISOString, is_iso8601.
  pose proof (civil_year _ (Day_range d)) as Hy.
  pose proof (civil_month_date (Day (ms d))) as [Hm Hd].
  pose proof (time_fields (ms d)) as (Hh & Hmi & Hs & Hms).
  rewrite year_then_dash_year_string by exact Hy. cbn [opt_bind].
  repeat (rewrite field_then_pad
            by (try change (10 ^ Z.of_nat 2) with 100;
                try change (10 ^ Z.of_nat 3) with 1000; lia);
          cbn [opt_bind]).
  reflexivity.
Qed.

(** *** [parseInt] on text without a digit *)

Lemma trim_start_no_digit (s : string) :
  no_decimal_digit s = true -> no_decimal_digit (trim_start s) = true.
Proof.
  induction s as [|c s IH]; [reflexivity|]. intros H. cbn [trim_start].
  destruct (is_white_space c); [|exact H].
  cbn in H. apply andb_true_iff in H. now apply IH.
Qed.

Lemma strip_sign_no_digit (s : string) :
  no_decimal_digit s = true -> no_decimal_digit (snd (strip_sign s)) = true.
Proof.
  destruct s as [|c s]; [reflexivity|]. intros H. unfold strip_sign.
  assert (H' : no_decimal_digit s = true)
    by (cbn in H; now apply andb_true_iff in H).
  destruct (Ascii.eqb c "-"); [exact H'|].
  destruct (Ascii.eqb c "+"); [exact H' | exact H].
Qed.

Lemma read_digits_no_digit (s : string) :
  no_decimal_digit s = true -> read_digits 10 None s = None.
Proof.
  destruct s as [|c s]; [reflexivity|].
  cbn [no_decimal_digit read_digits]. intros H.
  apply andb_true_iff in H. destruct H as [H _]. apply negb_true_iff in H.
  unfold digit_of. unfold is_decimal_digit in H. rewrite H.
  destruct ((97 <=? code c) && (code c <=? 122)) eqn:E1.
  - apply andb_true_iff in E1. destruct E1 as [E1 _]. apply Z.leb_le in E1.
    replace (code c - 87 <? 10) with false
      by (symmetry; apply Z.ltb_ge; lia).
    reflexivity.
  - destruct ((65 <=? code c) && (code c <=? 90)) eqn:E2; [|reflexivity].
    apply andb_true_iff in E2. destruct E2 as [E2 _]. apply Z.leb_le in E2.
    replace (code c - 55 <? 10) with false
      by (symmetry; apply Z.ltb_ge; lia).
    reflexivity.
Qed.

Lemma parseInt_no_digit (s : string) :
  no_decimal_digit s = true -> parseInt s 10 = NaN.
Proof.
  intros H. unfold parseInt.
  pose proof (strip_sign_no_digit _ (trim_start_no_digit _ H)) as H'.
  destruct (strip_sign (trim_start s)) as [sign body]. cbn [snd] in H'.
  cbn. now rewrite read_digits_no_digit.
Qed.

Lemma or_else_set (s d : string) : s <> "" -> or_else (Some s) d = s.
Proof. destruct s; [congruence | reflexivity]. Qed.

(** ** Handlers, run to their end *)

Lemma events_since_logged (w : world) (evs : list event)
  (out : list http_response) :
  events_since w {| env := logged evs w; sent := out |} = evs.
Proof.
  unfold events_since. cbn [env logged history].
  rewrite skipn_app, skipn_all, Nat.sub_diag. reflexivity.
Qed.

Lemma logged_logged (w : world) (l1 l2 : list event) :
  logged l2 (logged l1 w) = logged (l1 ++ l2) w.
Proof. unfold logged; cbn. now rewrite app_assoc. Qed.

Ltac flatten_history :=
  unfold record, logged;
  cbn [env sent history database pool_release uptime clock on_unhandled];
  rewrite <- ?app_assoc; reflexivity.

Lemma serve_health (w : world) :
  serve GET_health w =
  match database w with
  | Reachable =>
      ({| env := logged [Requested probe] w;
          sent := [Response 200 (health_body true w)] |}, Returned tt)
  | Unreachable e =>
      ({| env := logged [Requested probe; LoggedError "DB check failed:" e] w;
          sent := [Response 200 (health_body false w)] |}, Returned tt)
  end.
Proof.
  unfold serve, handler, health, health_body, probe.
  destruct w as [db rel up clk pol hist]; destruct db;
    cbn -[toISOString]; flatten_history.
Qed.

Lemma serve_root (w : world) :
  serve GET_root w =
  ({| env := w;
      sent := [Response 200 [ ("service", JStr "API Server");
                              ("status", JStr "running");
                              ("version", JStr "1.0.0") ]] |}, Returned tt).
Proof. reflexivity. Qed.

Lemma deliver_shutdown (sg : signal) (w : world) :
  deliver sg w =
  match pool_release w with
  | Fulfilled =>
      ({| env := logged [Logged shutdown_banner; Requested prisma_disconnect;
                         ProcessExit 0] w;
          sent := [] |}, Exited 0)
  | Rejected e =>
      ({| env := logged [Logged shutdown_banner; Requested prisma_disconnect] w;
          sent := [] |}, Threw e)
  end.
Proof.
  unfold deliver.
  destruct w as [db rel up clk pol hist]; destruct sg, rel; cbn; flatten_history.
Qed.

(** ** Handlers in the event loop *)

Lemma advance_shutdown (P : process) :
  exists k, releases k /\
    advance shutdown P =
    {| st := {| env := logged [Logged shutdown_banner; Requested prisma_disconnect]
                              (env (st P));
                sent := sent (st P) |};
       parked := parked P ++ [k]; exit_code := exit_code P |}.
Proof.
  eexists. split.
  2:{ destruct P as [[w out] ks ec]. cbn. unfold record, logged; cbn.
      rewrite <- app_assoc. reflexivity. }
  intros [|e] P'; reflexivity.
Qed.

Lemma advance_health (P : process) :
  exists k, replies k /\
    advance health P =
    {| st := {| env := logged [Requested probe] (env (st P)); sent := sent (st P) |};
       parked := parked P ++ [k]; exit_code := exit_code P |}.
Proof.
  eexists. split.
  2:{ destruct P as [[w out] ks ec]. cbn. reflexivity. }
  intros [|e] [[w out] ks ec]; cbn -[toISOString];
    unfold health_body, logged; cbn -[toISOString].
  - rewrite app_nil_r. destruct w; reflexivity.
  - reflexivity.
Qed.

Lemma advance_root (P : process) :
  advance root P =
  {| st := {| env := env (st P);
              sent := sent (st P) ++
                      [Response 200 [ ("service", JStr "API Server");
                                      ("status", JStr "running");
                                      ("version", JStr "1.0.0") ]] |};
     parked := parked P; exit_code := exit_code P |}.
Proof. reflexivity. Qed.

Ltac run_loop w :=
  destruct w as [db rel up clk pol hist];
  unfold events_since, exec, boot, step, unhandled, record, logged;
  cbn -[toISOString skipn];
  rewrite <- ?app_assoc, ?skipn_app, ?skipn_all, ?Nat.sub_diag;
  cbn -[toISOString].

Lemma exec_signal_settle (sg : signal) (r : settled) (w : world) :
  exit_code (exec [Signal sg; Settle 0 r] (boot w)) =
    match r with
    | Fulfilled => Some 0
    | Rejected _ => match on_unhandled w with Crash => Some 1 | Warn => None end
    end /\
  events_since w (st (exec [Signal sg; Settle 0 r] (boot w))) =
    [Logged shutdown_banner; Requested prisma_disconnect] ++
    match r with
    | Fulfilled => [ProcessExit 0]
    | Rejected e => [UnhandledRejection e]
    end.
Proof.
  destruct sg, r; run_loop w; try destruct pol; cbn;
    rewrite <- ?app_assoc, ?skipn_app, ?skipn_all, ?Nat.sub_diag;
    split; reflexivity.
Qed.

Lemma exec_health_settle (r : settled) (w : world) :
  exec [Incoming GET_health; Settle 0 r] (boot w) =
  {| st := {| env := logged (Requested probe ::
                             match r with
                             | Fulfilled => []
                             | Rejected e => [LoggedError "DB check failed:" e]
                             end) w;
              sent := [Response 200 (health_body match r with
                                                 | Fulfilled => true
                                                 | Rejected _ => false
                                                 end w)] |};
     parked := []; exit_code := None |}.
Proof.
  destruct r; destruct w as [db rel up clk pol hist];
    unfold exec, boot, step, health_body, probe; cbn -[toISOString];
    unfold logged; cbn -[toISOString]; rewrite <- ?app_assoc, ?app_nil_r;
    reflexivity.
Qed.

(** *** The invariant *)

Lemma exits_follow_release_app (l1 : list event) :
  forall (seen : bool) (l2 : list event),
  exits_follow_release seen (l1 ++ l2) =
  exits_follow_release seen l1
  && exits_follow_release (seen || existsb is_disconnect l1) l2.
Proof.
  induction l1 as [|ev l1 IH]; intros seen l2.
  - cbn. now rewrite orb_false_r.
  - destruct ev as [t|t e|r|e|code];
      cbn [app exits_follow_release existsb];
      rewrite IH; cbn [is_disconnect];
      rewrite ?orb_false_l, ?orb_false_r, <- ?andb_assoc, ?orb_assoc;
      reflexivity.
Qed.

Lemma Forall_remove_nth {A : Type} (Q : A -> Prop) (l : list A) :
  forall i : nat, Forall Q l -> Forall Q (remove_nth i l).
Proof.
  induction l as [|a l IH]; intros i H; [destruct i; exact H|].
  inversion H; subst. destruct i; cbn; auto.
Qed.

Lemma sound_boot (w : world) : sound w (boot w).
Proof.
  exists []. cbn. repeat split; auto.
  unfold logged. rewrite app_nil_r. now destruct w.
Qed.

Lemma sound_weaken (evs more : list event)
  (ks : list (settled -> async unit)) :
  Forall (fun k => replies k \/
                   (releases k /\ existsb is_disconnect evs = true)) ks ->
  Forall (fun k => replies k \/
                   (releases k /\ existsb is_disconnect (evs ++ more) = true)) ks.
Proof.
  apply Forall_impl. intros k [H | [H1 H2]]; [now left | right].
  split; [exact H1 | rewrite existsb_app, H2; reflexivity].
Qed.

Lemma sound_step (w : world) (P : process) (t : tick) :
  sound w P -> sound w (step P t).
Proof.
  intros (evs & Hw & Hx & Hk). unfold step.
  destruct (exit_code P) eqn:Hec; [exists evs; auto|].
  destruct t as [sg | r | i s].
  - assert (E : on_signal sg = shutdown) by (destruct sg; reflexivity).
    rewrite E. destruct (advance_shutdown P) as (k & Hrel & ->).
    exists (evs ++ [Logged shutdown_banner; Requested prisma_disconnect]).
    cbn [st env parked]. rewrite Hw, logged_logged.
    split; [reflexivity|]. split.
    + rewrite exits_follow_release_app, Hx. reflexivity.
    + apply Forall_app. split; [now apply sound_weaken|].
      constructor; [|constructor]. right. split; [exact Hrel|].
      rewrite existsb_app. cbn. now rewrite orb_true_r.
  - destruct r; cbn [handler].
    + destruct (advance_health P) as (k & Hrep & ->).
      exists (evs ++ [Requested probe]).
      cbn [st env parked]. rewrite Hw, logged_logged.
      split; [reflexivity|]. split.
      * rewrite exits_follow_release_app, Hx. reflexivity.
      * apply Forall_app. split; [now apply sound_weaken|].
        constructor; [now left | constructor].
    + rewrite advance_root. exists evs. cbn [st env parked]. auto.
  - destruct (nth_error (parked P) i) as [k|] eqn:Hn; [|exists evs; auto].
    pose proof (proj1 (Forall_forall _ _) Hk k (nth_error_In _ _ Hn)) as Hq.
    apply (Forall_remove_nth _ _ i) in Hk.
    destruct Hq as [Hrep | [Hrel Hd]].
    + rewrite Hrep. cbn [st env sent parked exit_code].
      exists (evs ++ match s with
                     | Fulfilled => []
                     | Rejected e => [LoggedError "DB check failed:" e]
                     end).
      rewrite Hw, logged_logged. split; [reflexivity|]. split.
      * rewrite exits_follow_release_app, Hx. destruct s; reflexivity.
      * now apply sound_weaken.
    + rewrite Hrel. unfold unhandled, record.
      destruct s as [|e]; cbn [st env sent parked exit_code].
      * exists (evs ++ [ProcessExit 0]). rewrite Hw, logged_logged.
        split; [reflexivity|]. split.
        -- rewrite exits_follow_release_app, Hx, Hd. reflexivity.
        -- constructor.
      * exists (evs ++ [UnhandledRejection e]).
        destruct (on_unhandled (env (st P))); cbn [st env sent parked exit_code];
          rewrite Hw, logged_logged; (split; [reflexivity|]); split;
          try (rewrite exits_follow_release_app, Hx; reflexivity).
        -- constructor.
        -- now apply sound_weaken.
Qed.

Lemma sound_exec (w : world) (ticks : list tick) : forall P : process,
  sound w P -> sound w (exec ticks P).
Proof.
  induction ticks as [|t ticks IH]; intros P H; [exact H|].
  cbn. apply IH. now apply sound_step.
Qed.

(** Whatever arrives and in whatever order, the process never calls
    [process.exit] with a code other than 0, nor before a release of the
    pool was requested. *)
Lemma exits_follow_release_exec (w : world) (ticks : list tick) :
  exits_follow_release false (events_since w (st (exec ticks (boot w)))) = true.
Proof.
  destruct (sound_exec w ticks _ (sound_boot w)) as (evs & Hw & Hx & _).
  destruct (st (exec ticks (boot w))) as [w' out]. cbn in Hw. subst w'.
  now rewrite events_since_logged.
Qed.

(** ** The two semantics agree

    Settling the one pending promise as the world dictates gives, in the
    event loop, the response and the history of the sequential run. *)

Lemma health_in_loop (w : world) :
  st (exec [Incoming GET_health; Settle 0 (answer w probe)] (boot w))
  = fst (serve GET_health w).
Proof.
  rewrite exec_health_settle, serve_health. unfold answer, probe.
  destruct (database w); reflexivity.
Qed.

Lemma shutdown_in_loop (sg : signal) (w : world) :
  pool_release w = Fulfilled ->
  st (exec [Signal sg; Settle 0 (answer w prisma_disconnect)] (boot w))
  = fst (deliver sg w).
Proof.
  intros H. rewrite deliver_shutdown. cbn [answer]. rewrite H.
  destruct sg; destruct w as [db rel up clk pol hist]; cbn in H; subst rel;
    unfold exec, boot, step; cbn; flatten_history.
Qed.

(** ** The health check *)

(** C1. Whatever the state of the database, [GET /health] ends normally
    with one response of status 200 carrying a JSON object: run to its end
    in any world, and in the event loop however the probe settles; a
    failed probe leaves no unhandled rejection and the process alive. *)
Theorem health_always_answers_200 (w : world) (r : settled) :
  snd (serve GET_health w) = Returned tt /\
  (exists o : json,
     sent (fst (serve GET_health w)) = [ {| statusCode := 200; body := o |} ]) /\
  (exists o : json,
     sent (st (exec [Incoming GET_health; Settle 0 r] (boot w)))
     = [ {| statusCode := 200; body := o |} ]) /\
  exit_code (exec [Incoming GET_health; Settle 0 r] (boot w)) = None /\
  existsb is_unhandled
    (events_since w (st (exec [Incoming GET_health; Settle 0 r] (boot w))))
  = false.
Proof.
  rewrite exec_health_settle, serve_health. cbn [st sent exit_code].
  rewrite events_since_logged.
  destruct (database w), r; cbn [fst snd sent]; repeat split; eauto.
Qed.

(** C2. The [status] field is ["healthy"] exactly when the probe query is
    fulfilled and ["degraded"] exactly when it is rejected, whatever the
    reason [e]; it takes no other value. A rejected probe is logged with
    [console.error], once, after the single request. *)
Theorem health_status_reflects_probe (w : world) :
  exists o : json,
    sent (fst (serve GET_health w)) = [ {| statusCode := 200; body := o |} ] /\
    (get "status" o = Some (JStr "healthy") <-> answer w probe = Fulfilled) /\
    (get "status" o = Some (JStr "degraded")
     <-> exists e, answer w probe = Rejected e) /\
    (get "status" o = Some (JStr "healthy")
     \/ get "status" o = Some (JStr "degraded")) /\
    events_since w (fst (serve GET_health w)) =
      match answer w probe with
      | Fulfilled => [Requested probe]
      | Rejected e => [Requested probe; LoggedError "DB check failed:" e]
      end.
Proof.
  rewrite serve_health. unfold answer, probe.
  destruct (database w) as [|e]; cbn [fst snd sent]; eexists;
    (split; [reflexivity|]); rewrite events_since_logged; cbn.
  - repeat split; auto; try discriminate. intros [e H]; discriminate.
  - repeat split; auto; try discriminate. eauto.
Qed.

(** C5. Whether the probe succeeded or not, the body holds, after
    [status], the field [uptime] with the floating-point number of
    [process.uptime()] and the field [timestamp] with the ISO-8601 text of
    the current time. *)
Theorem health_reports_uptime_and_timestamp (w : world) :
  exists (o : json) (status : jvalue),
    sent (fst (serve GET_health w)) = [ {| statusCode := 200; body := o |} ] /\
    o = [ ("status", status);
          ("uptime", JNum (uptime w));
          ("timestamp", JStr (toISOString (clock w))) ] /\
    is_iso8601 (toISOString (clock w)) = true.
Proof.
  rewrite serve_health.
  destruct (database w); cbn [fst sent]; do 2 eexists;
    (split; [reflexivity|]); (split; [reflexivity|]);
    apply toISOString_is_iso8601.
Qed.

(** C8. One [GET /health] issues exactly one database request, the query
    [SELECT 1], in every world; in the event loop, once that request has
    settled, with a failure or not, no request was added and no handler is
    left waiting. *)
Theorem health_probes_once (w : world) (r : settled) :
  filter is_request (events_since w (fst (serve GET_health w)))
  = [Requested (prisma_queryRaw "SELECT 1")] /\
  filter is_request
    (events_since w (st (exec [Incoming GET_health; Settle 0 r] (boot w))))
  = [Requested (prisma_queryRaw "SELECT 1")] /\
  parked (exec [Incoming GET_health; Settle 0 r] (boot w)) = [].
Proof.
  rewrite exec_health_settle, serve_health. cbn [st parked].
  rewrite events_since_logged.
  destruct (database w), r; cbn [fst]; rewrite ?events_since_logged;
    repeat split; reflexivity.
Qed.

(** ** The root endpoint *)

(** C9. In every world the root endpoint answers 200 with exactly
    [{service: "API Server", status: "running", version: "1.0.0"}]. *)
Theorem root_payload_is_constant (w : world) :
  snd (serve GET_root w) = Returned tt /\
  sent (fst (serve GET_root w)) =
    [ {| statusCode := 200;
         body := [ ("service", JStr "API Server");
                   ("status", JStr "running");
                   ("version", JStr "1.0.0") ] |} ].
Proof. rewrite serve_root. split; reflexivity. Qed.

(** C6. Two calls of the root endpoint, in any two worlds, write the same
    response, made of a service name, the status ["running"] and a
    version; each leaves its world as it was (database, console and
    request history included), and in the event loop the call suspends
    nothing and does not end the process. *)
Theorem root_is_deterministic_and_pure (w1 w2 : world) (P : process) :
  sent (fst (serve GET_root w1)) = sent (fst (serve GET_root w2)) /\
  (exists service version : string,
     sent (fst (serve GET_root w1)) =
       [ {| statusCode := 200;
            body := [ ("service", JStr service);
                      ("status", JStr "running");
                      ("version", JStr version) ] |} ]) /\
  env (fst (serve GET_root w1)) = w1 /\
  env (fst (serve GET_root w2)) = w2 /\
  env (st (advance (handler GET_root) P)) = env (st P) /\
  parked (advance (handler GET_root) P) = parked P /\
  exit_code (advance (handler GET_root) P) = exit_code P.
Proof.
  rewrite !serve_root. cbn [fst sent env].
  repeat split; eauto.
Qed.

(** ** Shutdown *)

(** C3, as stated, fails: with a release of the pool that is rejected,
    [shutdown] throws after the request and never calls [process.exit];
    where unhandled rejections only warn, the process is still running,
    and where they crash, it dies with code 1, not by the handler. *)
Lemma shutdown_stops_when_release_fails :
  snd (deliver SIGINT stuck_world) = Threw "pool is busy" /\
  count is_exit (events_since stuck_world (fst (deliver SIGINT stuck_world)))
  = 0%nat /\
  exit_code (exec [Signal SIGINT; Settle 0 (Rejected "pool is busy")]
                  (boot stuck_world)) = None /\
  exit_code (exec [Signal SIGINT; Settle 0 (Rejected "pool is busy")]
                  (boot crashing_world)) = Some 1 /\
  count is_exit
    (events_since crashing_world
       (st (exec [Signal SIGINT; Settle 0 (Rejected "pool is busy")]
                 (boot crashing_world)))) = 0%nat.
Proof. repeat split; reflexivity. Qed.

(** C3, amended. A failed release is not caught: the handler's promise
    rejects with the failure, which ends as an unhandled rejection. The
    handler reaches [process.exit(0)] exactly when the release succeeds;
    after a failed release it calls no exit, and the process either goes
    on or is ended by the runtime with code 1. *)
Theorem shutdown_exits_iff_release_succeeds
  (sg : signal) (w : world) (r : settled) :
  snd (deliver sg w) =
    match pool_release w with
    | Fulfilled => Exited 0
    | Rejected e => Threw e
    end /\
  count is_exit (events_since w (fst (deliver sg w))) =
    match pool_release w with
    | Fulfilled => 1%nat
    | Rejected _ => 0%nat
    end /\
  exit_code (exec [Signal sg; Settle 0 r] (boot w)) =
    match r with
    | Fulfilled => Some 0
    | Rejected _ => match on_unhandled w with Crash => Some 1 | Warn => None end
    end /\
  events_since w (st (exec [Signal sg; Settle 0 r] (boot w))) =
    [Logged shutdown_banner; Requested prisma_disconnect] ++
    match r with
    | Fulfilled => [ProcessExit 0]
    | Rejected e => [UnhandledRejection e]
    end.
Proof.
  rewrite deliver_shutdown.
  split; [|split; [|apply exec_signal_settle]];
    destruct (pool_release w); cbn [fst snd];
    rewrite ?events_since_logged; reflexivity.
Qed.

(** C4, as stated, fails: on [SIGTERM] with a release that is rejected the
    handler logs and requests the release, and no exit with code 0
    follows. *)
Lemma shutdown_without_exit_step :
  events_since stuck_world (fst (deliver SIGTERM stuck_world)) =
    [Logged shutdown_banner; Requested prisma_disconnect] /\
  snd (deliver SIGTERM stuck_world) <> Exited 0 /\
  exit_code (exec [Signal SIGTERM; Settle 0 (Rejected "pool is busy")]
                  (boot crashing_world)) <> Some 0.
Proof. split; [reflexivity | split; discriminate]. Qed.

(** C4, amended. On either signal the handler logs the shutdown banner,
    then requests the release of the pool, then, if the release
    succeeded, exits with code 0, in that order and nothing else. In every
    execution of the event loop, whatever arrives, each [process.exit] has
    code 0 and comes after a release was requested. *)
Theorem shutdown_steps_in_order
  (sg : signal) (w : world) (ticks : list tick) :
  events_since w (fst (deliver sg w)) =
    [Logged shutdown_banner; Requested prisma_disconnect] ++
    match pool_release w with
    | Fulfilled => [ProcessExit 0]
    | Rejected _ => []
    end /\
  snd (deliver sg w) =
    match pool_release w with
    | Fulfilled => Exited 0
    | Rejected e => Threw e
    end /\
  exits_follow_release false (events_since w (st (exec ticks (boot w)))) = true.
Proof.
  rewrite deliver_shutdown.
  split; [|split; [|apply exits_follow_release_exec]];
    destruct (pool_release w); cbn [fst snd];
    rewrite ?events_since_logged; reflexivity.
Qed.

(** C7. After a first signal the process is still alive with [shutdown]
    suspended at its [await]; a second signal, whichever it is, runs the
    handler again: the banner is logged twice and the release of the pool
    is requested twice. *)
Theorem second_signal_reenters_shutdown (w : world) (s1 s2 : signal) :
  exit_code (exec [Signal s1] (boot w)) = None /\
  List.length (parked (exec [Signal s1] (boot w))) = 1%nat /\
  events_since w (st (exec [Signal s1; Signal s2] (boot w))) =
    [Logged shutdown_banner; Requested prisma_disconnect;
     Logged shutdown_banner; Requested prisma_disconnect] /\
  count is_disconnect
    (events_since w (st (exec [Signal s1; Signal s2] (boot w)))) = 2%nat /\
  List.length (parked (exec [Signal s1; Signal s2] (boot w))) = 2%nat /\
  exit_code (exec [Signal s1; Signal s2; Settle 0 Fulfilled] (boot w)) = Some 0.
Proof.
  destruct s1, s2; run_loop w; repeat split; reflexivity.
Qed.

(** ** The port *)







Example PORT_from_environment :
  PORT (Some "3000") = Int 3000 /\
  PORT (Some "80abc") = Int 80 /\
  PORT (Some "eighty") = NaN.
Proof. repeat split; reflexivity. Qed.

(** * Further facts *)

Import Startup Ledger Timestamp.

(** ** Numerals in [PORT] and in the start-up banner *)

Lemma digit_of_digit (d : Z) (H : 0 <= d < 10) : digit_of (digit d) = Some d.
Proof. by_digit d H. Qed.

Lemma digit_not_white_space (d : Z) (H : 0 <= d < 10) :
  is_white_space (digit d) = false.
Proof. by_digit d H. Qed.

Lemma read_digit (d : Z) (acc : option Z) (rest : string) :
  0 <= d < 10 ->
  read_digits 10 acc (String (digit d) rest)
  = read_digits 10 (Some (10 * match acc with Some a => a | None => 0 end + d)) rest.
Proof.
  intros H. cbn [read_digits]. rewrite digit_of_digit by exact H.
  replace (d <? 10) with true by (symmetry; apply Z.ltb_lt; lia). reflexivity.
Qed.

Lemma read_decimal_fuel (fuel : nat) : forall (n : Z) (rest : string),
  0 <= n < 10 ^ Z.of_nat (S fuel) ->
  read_digits 10 None (decimal_fuel fuel n rest) = read_digits 10 (Some n) rest.
Proof.
  induction fuel as [|fuel IH]; intros n rest Hn.
  - change (10 ^ Z.of_nat 1) with 10 in Hn. cbn [decimal_fuel].
    rewrite read_digit by (apply Z.mod_pos_bound; lia).
    rewrite Z.mod_small by lia. f_equal.
  - rewrite Nat2Z.inj_succ, Z.pow_succ_r in Hn by lia.
    cbn [decimal_fuel]. destruct (n <? 10) eqn:E.
    + apply Z.ltb_lt in E. rewrite read_digit by (apply Z.mod_pos_bound; lia).
      rewrite Z.mod_small by lia. f_equal.
    + rewrite IH
        by (split; [apply Z.div_pos; lia | apply Z.div_lt_upper_bound; lia]).
      rewrite read_digit by (apply Z.mod_pos_bound; lia).
      cbn beta iota. f_equal. f_equal. pose proof (Z.div_mod n 10). lia.
Qed.

Lemma decimal_fuel_enough (n : Z) :
  0 <= n -> 0 <= n < 10 ^ Z.of_nat (S (Z.to_nat (Z.log2 n))).
Proof.
  intros Hn. split; [exact Hn|].
  rewrite Nat2Z.inj_succ, Z2Nat.id by apply Z.log2_nonneg.
  destruct (Z.eq_dec n 0) as [-> | Hz]; [reflexivity|].
  pose proof (Z.log2_spec n ltac:(lia)) as [_ Hlt].
  pose proof (Z.log2_nonneg n).
  eapply Z.lt_le_trans; [exact Hlt|].
  apply Z.pow_le_mono_l. lia.
Qed.

Lemma decimal_fuel_app (fuel : nat) : forall (n : Z) (rest tail : string),
  (decimal_fuel fuel n rest ++ tail)%string = decimal_fuel fuel n (rest ++ tail)%string.
Proof.
  induction fuel as [|fuel IH]; intros n rest tail; cbn [decimal_fuel].
  - reflexivity.
  - destruct (n <? 10); [reflexivity | apply IH].
Qed.

Lemma decimal_fuel_head (fuel : nat) : forall (n : Z) (rest : string),
  0 <= n ->
  exists (d : Z) (r : string), 0 <= d < 10 /\ decimal_fuel fuel n rest = String (digit d) r.
Proof.
  induction fuel as [|fuel IH]; intros n rest Hn; cbn [decimal_fuel].
  - exists (n mod 10), rest. split; [apply Z.mod_pos_bound; lia | reflexivity].
  - destruct (n <? 10).
    + exists (n mod 10), rest. split; [apply Z.mod_pos_bound; lia | reflexivity].
    + apply IH. apply Z.div_pos; lia.
Qed.

Lemma read_digits_stops (v : Z) (tail : string) :
  no_digit_ahead tail = true -> read_digits 10 (Some v) tail = Some v.
Proof.
  destruct tail as [|c tail]; [reflexivity|]. cbn [no_digit_ahead read_digits].
  intros H. apply negb_true_iff in H.
  unfold digit_of. unfold is_decimal_digit in H. rewrite H.
  destruct ((97 <=? code c) && (code c <=? 122)) eqn:E1.
  - apply andb_true_iff in E1. destruct E1 as [E1 _]. apply Z.leb_le in E1.
    replace (code c - 87 <? 10) with false
      by (symmetry; apply Z.ltb_ge; lia).
    reflexivity.
  - destruct ((65 <=? code c) && (code c <=? 90)) eqn:E2; [|reflexivity].
    apply andb_true_iff in E2. destruct E2 as [E2 _]. apply Z.leb_le in E2.
    replace (code c - 55 <? 10) with false
      by (symmetry; apply Z.ltb_ge; lia).
    reflexivity.
Qed.

(** A numeral, then something that is not a digit: the numeral is read. *)
Lemma parseInt_numeral (n : Z) (tail : string) :
  0 <= n -> no_digit_ahead tail = true ->
  parseInt (decimal_fuel (Z.to_nat (Z.log2 n)) n tail) 10 = Int n.
Proof.
  intros Hn Ht.
  destruct (decimal_fuel_head (Z.to_nat (Z.log2 n)) n tail Hn) as (d & r & Hd & E).
  unfold parseInt.
  assert (T : trim_start (decimal_fuel (Z.to_nat (Z.log2 n)) n tail)
              = decimal_fuel (Z.to_nat (Z.log2 n)) n tail).
  { rewrite E. cbn [trim_start]. now rewrite digit_not_white_space. }
  rewrite T.
  assert (S : strip_sign (decimal_fuel (Z.to_nat (Z.log2 n)) n tail)
              = (1, decimal_fuel (Z.to_nat (Z.log2 n)) n tail)).
  { rewrite E. unfold strip_sign.
    pose proof (digit_not_sign d Hd) as Hs. apply orb_false_iff in Hs.
    destruct Hs as [Hp Hm]. now rewrite Hm, Hp. }
  rewrite S. cbn -[Z.mul read_digits].
  rewrite read_decimal_fuel by (apply decimal_fuel_enough; exact Hn).
  rewrite read_digits_stops by exact Ht. now rewrite Z.mul_1_l.
Qed.

Lemma parseInt_decimal_then (n : Z) (tail : string) :
  0 <= n -> no_digit_ahead tail = true ->
  parseInt (decimal n ++ tail)%string 10 = Int n.
Proof.
  intros Hn Ht. unfold decimal. rewrite decimal_fuel_app. cbn [append].
  now apply parseInt_numeral.
Qed.

Lemma parseInt_minus (d v : Z) (r : string) :
  0 <= d < 10 ->
  parseInt (String (digit d) r) 10 = Int v ->
  parseInt (String "-" (String (digit d) r)) 10 = Int (- v).
Proof.
  intros Hd. unfold parseInt.
  cbn [trim_start]. rewrite digit_not_white_space by exact Hd.
  change (is_white_space "-") with false. cbn iota.
  unfold strip_sign.
  pose proof (digit_not_sign d Hd) as Hs. apply orb_false_iff in Hs.
  destruct Hs as [Hp Hm]. rewrite Hm, Hp.
  change (Ascii.eqb "-" "-") with true. cbn -[Z.mul read_digits digit].
  destruct (read_digits 10 None (String (digit d) r)) as [w|]; [|discriminate].
  intros H. injection H as H. subst v. f_equal. destruct w; reflexivity.
Qed.

Lemma parseInt_Number_toString (n : Z) :
  parseInt (Number_toString (Int n)) 10 = Int n.
Proof.
  unfold Number_toString. destruct (n <? 0) eqn:E.
  - apply Z.ltb_lt in E.
    pose proof (parseInt_numeral (- n) "" ltac:(lia) eq_refl) as H.
    unfold decimal.
    destruct (decimal_fuel_head (Z.to_nat (Z.log2 (- n))) (- n) "" ltac:(lia))
      as (d & r & Hd & Ed).
    rewrite Ed in *. rewrite (parseInt_minus d (- n) r Hd H). f_equal. lia.
  - apply Z.ltb_ge in E. now apply parseInt_numeral.
Qed.

Lemma trim_start_white_space (ws s : string) :
  all_white_space ws = true -> trim_start (ws ++ s)%string = trim_start s.
Proof.
  induction ws as [|c ws IH]; [reflexivity|]. cbn [all_white_space append trim_start].
  intros H. apply andb_true_iff in H. destruct H as [Hc Hw].
  rewrite Hc. now apply IH.
Qed.

Lemma decimal_not_empty (n : Z) (tail : string) :
  0 <= n -> (decimal n ++ tail)%string <> "".
Proof.
  intros Hn. unfold decimal. rewrite decimal_fuel_app.
  destruct (decimal_fuel_head (Z.to_nat (Z.log2 n)) n ("" ++ tail)%string Hn)
    as (d & r & _ & ->).
  discriminate.
Qed.

Lemma PORT_numeral (n : Z) : 0 <= n -> PORT (Some (decimal n)) = Int n.
Proof.
  intros Hn. unfold PORT.
  pose proof (decimal_not_empty n "" Hn) as Hne.
  pose proof (parseInt_numeral n "" Hn eq_refl) as H.
  unfold decimal in *. rewrite decimal_fuel_app in Hne. cbn [append] in Hne.
  rewrite or_else_set by exact Hne. exact H.
Qed.

(** ** The width of a timestamp *)

Lemma length_pad (w : nat) : forall (n : Z) (rest : string),
  String.length (pad w n rest) = (w + String.length rest)%nat.
Proof.
  induction w as [|w IH]; intros n rest; [reflexivity|].
  cbn [pad]. rewrite IH. cbn [String.length]. lia.
Qed.

Lemma civil_year_four_digits (days : Z) :
  -719528 <= days <= 2932896 ->
  0 <= year (civil_from_days days) <= 9999.
Proof.
  intros Hd. unfold civil_from_days. cbv zeta. cbn [year month].
  set (z := days + 719468).
  pose proof (Z.div_mod z 146097) as Hz.
  pose proof (Z.mod_pos_bound z 146097) as Hz'.
  set (n400 := z / 146097) in *.
  set (d1 := z mod 146097) in *.
  assert (H1 : 0 <= d1 < 146097) by lia.
  pose proof (Z.div_mod d1 36524) as Hq.
  pose proof (Z.mod_pos_bound d1 36524) as Hq'.
  set (q100 := d1 / 36524) in *.
  set (n100 := Z.min q100 3).
  assert (Hn100 : 0 <= n100 <= 3) by (subst n100; lia).
  set (d2 := d1 - 36524 * n100).
  assert (H2 : 0 <= d2 <= 36524) by (subst d2 n100; lia).
  pose proof (Z.div_mod d2 1461) as Hr.
  pose proof (Z.mod_pos_bound d2 1461) as Hr'.
  set (n4 := d2 / 1461) in *.
  set (d3 := d2 mod 1461) in *.
  pose proof (Z.div_mod d3 365) as Hs.
  pose proof (Z.mod_pos_bound d3 365) as Hs'.
  set (q1 := d3 / 365) in *.
  set (n1 := Z.min q1 3).
  assert (Hn1 : 0 <= n1 <= 3) by (subst n1; lia).
  set (doy := d3 - 365 * n1).
  assert (Hdoy : 0 <= doy <= 365) by (subst doy n1; lia).
  pose proof (Z.div_mod (5 * doy + 2) 153) as Hm.
  pose proof (Z.mod_pos_bound (5 * doy + 2) 153) as Hm'.
  set (mp := (5 * doy + 2) / 153) in *.
  assert (Hn4 : 0 <= n4 <= 24) by lia.
  assert (Hn400 : -1 <= n400 <= 24) by (subst z; lia).
  destruct (mp <? 10) eqn:E1; [apply Z.ltb_lt in E1 | apply Z.ltb_ge in E1];
    match goal with
    | |- context [if ?b then _ else _] => destruct b eqn:E2
    end;
    try (apply Z.leb_le in E2); try (apply Z.leb_gt in E2);
    subst doy d2 n100 n1 z; lia.
Qed.

Lemma civil_year_expanded (days : Z) :
  days < -719528 \/ 2932896 < days ->
  year (civil_from_days days) < 0 \/ 9999 < year (civil_from_days days).
Proof.
  intros Hd. unfold civil_from_days. cbv zeta. cbn [year month].
  set (z := days + 719468).
  pose proof (Z.div_mod z 146097) as Hz.
  pose proof (Z.mod_pos_bound z 146097) as Hz'.
  set (n400 := z / 146097) in *.
  set (d1 := z mod 146097) in *.
  assert (H1 : 0 <= d1 < 146097) by lia.
  pose proof (Z.div_mod d1 36524) as Hq.
  pose proof (Z.mod_pos_bound d1 36524) as Hq'.
  set (q100 := d1 / 36524) in *.
  set (n100 := Z.min q100 3).
  assert (Hn100 : 0 <= n100 <= 3) by (subst n100; lia).
  set (d2 := d1 - 36524 * n100).
  assert (H2 : 0 <= d2 <= 36524) by (subst d2 n100; lia).
  pose proof (Z.div_mod d2 1461) as Hr.
  pose proof (Z.mod_pos_bound d2 1461) as Hr'.
  set (n4 := d2 / 1461) in *.
  set (d3 := d2 mod 1461) in *.
  pose proof (Z.div_mod d3 365) as Hs.
  pose proof (Z.mod_pos_bound d3 365) as Hs'.
  set (q1 := d3 / 365) in *.
  set (n1 := Z.min q1 3).
  assert (Hn1 : 0 <= n1 <= 3) by (subst n1; lia).
  set (doy := d3 - 365 * n1).
  assert (Hdoy : 0 <= doy <= 365) by (subst doy n1; lia).
  pose proof (Z.div_mod (5 * doy + 2) 153) as Hm.
  pose proof (Z.mod_pos_bound (5 * doy + 2) 153) as Hm'.
  set (mp := (5 * doy + 2) / 153) in *.
  assert (Hn4 : 0 <= n4 <= 24) by lia.
  destruct (mp <? 10) eqn:E1; [apply Z.ltb_lt in E1 | apply Z.ltb_ge in E1];
    match goal with
    | |- context [if ?b then _ else _] => destruct b eqn:E2
    end;
    try (apply Z.leb_le in E2); try (apply Z.leb_gt in E2);
    subst doy d2 n100 n1 z; lia.
Qed.

Lemma length_toISOString (d : time_value) :
  String.length (toISOString d) =
  if (0 <=? year (civil_from_days (Day (ms d))))
     && (year (civil_from_days (Day (ms d))) <=? 9999)
  then 24%nat else 27%nat.
Proof.
  unfold toISOString, year_string.
  destruct ((0 <=? year (civil_from_days (Day (ms d))))
            && (year (civil_from_days (Day (ms d))) <=? 9999));
    cbn [String.length]; repeat (rewrite length_pad; cbn [String.length]);
    reflexivity.
Qed.

(** ** The ledger tracks the event loop *)

Lemma Forall2_nth_error_None {A B : Type} (R : A -> B -> Prop)
  (l : list A) (l' : list B) :
  Forall2 R l l' -> forall i : nat,
  nth_error l' i = None -> nth_error l i = None.
Proof.
  induction 1 as [|a b l l' Hab _ IH]; intros [|i] H; cbn in *;
    try reflexivity; try discriminate. now apply IH.
Qed.

Lemma Forall2_nth_error_Some {A B : Type} (R : A -> B -> Prop)
  (l : list A) (l' : list B) :
  Forall2 R l l' -> forall (i : nat) (b : B),
  nth_error l' i = Some b -> exists a : A, nth_error l i = Some a /\ R a b.
Proof.
  induction 1 as [|a b0 l l' Hab _ IH]; intros [|i] b H; cbn in *;
    try discriminate.
  - injection H as <-. eauto.
  - now apply IH.
Qed.

Lemma Forall2_remove_nth {A B : Type} (R : A -> B -> Prop)
  (l : list A) (l' : list B) :
  Forall2 R l l' -> forall i : nat,
  Forall2 R (remove_nth i l) (remove_nth i l').
Proof.
  induction 1 as [|a b l l' Hab Hl IH]; intros [|i]; cbn;
    try constructor; auto.
Qed.

Lemma represents_boot (w : world) : represents w opening (boot w).
Proof.
  unfold represents, opening, boot; cbn. repeat split; try constructor.
  unfold logged. rewrite app_nil_r. now destruct w.
Qed.

Lemma represents_step (w : world) (L : ledger) (P : process) (t : tick) :
  represents w L P -> represents w (lstep w L t) (step P t).
Proof.
  intros (Hw & Hs & Hk & He). unfold step, lstep. rewrite He.
  destruct (ended L) eqn:Hend;
    [repeat split; try assumption; congruence|].
  destruct t as [sg | r | i s].
  - assert (E : on_signal sg = shutdown) by (destruct sg; reflexivity).
    rewrite E. destruct (advance_shutdown P) as (k & Hrel & ->).
    unfold represents; cbn [st env sent parked exit_code grown waiting written ended].
    rewrite Hw, logged_logged. repeat split; try assumption.
    apply Forall2_app; [assumption | repeat constructor; exact Hrel].
  - destruct r; cbn [handler].
    + destruct (advance_health P) as (k & Hrep & ->).
      unfold represents; cbn [st env sent parked exit_code grown waiting written ended].
      rewrite Hw, logged_logged. repeat split; try assumption.
      apply Forall2_app; [assumption | repeat constructor; exact Hrep].
    + rewrite advance_root.
      unfold represents; cbn [st env sent parked exit_code grown waiting written ended].
      rewrite Hs. repeat split; assumption.
  - destruct (nth_error (parked P) i) as [k|] eqn:Hn.
    + destruct (Forall2_nth_error_Some _ _ _ Hk i k Hn) as (kd & Hkd & Hok).
      rewrite Hkd. apply (Forall2_remove_nth _ _ _) with (i := i) in Hk.
      destruct kd; cbn [kind_ok] in Hok; rewrite Hok.
      * unfold represents;
          cbn [st env sent parked exit_code grown waiting written ended].
        rewrite Hw, logged_logged, Hs. repeat split; try assumption.
      * unfold unhandled, record. destruct s as [|e];
          [|cbn [st env]; rewrite Hw; cbn [on_unhandled logged];
            destruct (on_unhandled w)];
          unfold represents;
          cbn [st env sent parked exit_code grown waiting written ended];
          rewrite ?Hw, logged_logged; repeat split; try assumption; constructor.
    + rewrite (Forall2_nth_error_None _ _ _ Hk i Hn).
      repeat split; try assumption; congruence.
Qed.

Lemma represents_exec (w : world) (ticks : list tick) :
  forall (L : ledger) (P : process),
  represents w L P -> represents w (lexec w ticks L) (exec ticks P).
Proof.
  induction ticks as [|t ticks IH]; intros L P H; [exact H|].
  cbn. apply IH. now apply represents_step.
Qed.

(** What is seen of an execution is what its ledger holds. *)
Lemma exec_ledger (w : world) (ticks : list tick) :
  events_since w (st (exec ticks (boot w))) = grown (lexec w ticks opening) /\
  sent (st (exec ticks (boot w))) = written (lexec w ticks opening) /\
  List.length (parked (exec ticks (boot w)))
  = List.length (waiting (lexec w ticks opening)) /\
  exit_code (exec ticks (boot w)) = ended (lexec w ticks opening).
Proof.
  destruct (represents_exec w ticks _ _ (represents_boot w)) as (Hw & Hs & Hk & He).
  repeat split; try assumption.
  - destruct (st (exec ticks (boot w))) as [w' out]. cbn in Hw. subst w'.
    apply events_since_logged.
  - symmetry. eapply Forall2_length. exact Hk.
Qed.

(** ** What every execution keeps *)

Lemma lexec_snoc (w : world) (ticks : list tick) (t : tick) (L : ledger) :
  lexec w (ticks ++ [t]) L = lstep w (lexec w ticks L) t.
Proof. unfold lexec. now rewrite fold_left_app. Qed.

Lemma tally_snoc (f : tick -> bool) (ticks : list tick) (t : tick) :
  tally f (ticks ++ [t]) = (tally f ticks + if f t then 1 else 0)%nat.
Proof.
  unfold tally. rewrite filter_app, length_app. cbn. now destruct (f t).
Qed.

Lemma count_app (f : event -> bool) (l1 l2 : list event) :
  count f (l1 ++ l2) = (count f l1 + count f l2)%nat.
Proof. unfold count. now rewrite filter_app, length_app. Qed.

Lemma length_remove_nth {A : Type} (l : list A) : forall (i : nat) (a : A),
  nth_error l i = Some a -> S (List.length (remove_nth i l)) = List.length l.
Proof.
  induction l as [|b l IH]; intros [|i] a H; cbn in *; try discriminate.
  - reflexivity.
  - f_equal. eapply IH. exact H.
Qed.

(** One step of the ledger, case by case. *)
Ltac ledger_step w L t :=
  unfold lstep;
  destruct (ended L) eqn:?;
  [ | destruct t as [? | [|] | ? [|?]];
      [ | | | destruct (nth_error (waiting L) _) as [[|]|] eqn:?
            | destruct (nth_error (waiting L) _) as [[|]|] eqn:?;
              [ | destruct (on_unhandled w) eqn:? | ] ] ];
  cbn [grown waiting written ended is_signal is_incoming is_health_request
       is_fulfilment].

Lemma ledger_alive_counts (w : world) (ticks : list tick) :
  ended (lexec w ticks opening) = None ->
  count is_disconnect (grown (lexec w ticks opening)) = tally is_signal ticks /\
  filter is_query (grown (lexec w ticks opening))
  = repeat (Requested probe) (tally is_health_request ticks) /\
  (List.length (written (lexec w ticks opening))
   + List.length (waiting (lexec w ticks opening))
   + count is_unhandled (grown (lexec w ticks opening))
   = tally is_incoming ticks + tally is_signal ticks)%nat.
Proof.
  induction ticks as [|t ticks IH] using rev_ind; [intros _; repeat split|].
  rewrite lexec_snoc, !tally_snoc. set (L := lexec w ticks opening) in *.
  ledger_step w L t; intros E; try discriminate;
    try (destruct (IH eq_refl) as (I1 & I2 & I3));
    rewrite ?count_app, ?filter_app, ?length_app, ?I1, ?I2;
    cbn [count filter is_disconnect is_query is_unhandled List.length app
         is_signal is_incoming is_health_request];
    rewrite ?app_nil_r, ?Nat.add_0_r;
    repeat split; try reflexivity; try congruence; try lia.
  all: try (match goal with
            | H : nth_error _ _ = Some _ |- _ =>
                pose proof (length_remove_nth _ _ _ H)
            end; lia).
  rewrite Nat.add_1_r. cbn [repeat]. rewrite repeat_cons. reflexivity.
Qed.

Lemma probes_remove_nth (l : list kind) : forall (i : nat) (kd : kind),
  nth_error l i = Some kd ->
  (List.length (filter is_probe (remove_nth i l)) + (if is_probe kd then 1 else 0)
   = List.length (filter is_probe l))%nat.
Proof.
  induction l as [|b l IH]; intros [|i] kd H; cbn in *; try discriminate.
  - injection H as <-. destruct b; cbn; lia.
  - specialize (IH i kd H). destruct b; cbn; lia.
Qed.

Lemma ledger_bounds (w : world) (ticks : list tick) :
  (List.length (written (lexec w ticks opening))
   + List.length (filter is_probe (waiting (lexec w ticks opening)))
   <= tally is_incoming ticks)%nat /\
  (count is_disconnect (grown (lexec w ticks opening)) <= tally is_signal ticks)%nat /\
  (count is_query (grown (lexec w ticks opening))
   <= tally is_health_request ticks)%nat.
Proof.
  induction ticks as [|t ticks IH] using rev_ind; [cbn; lia|].
  rewrite lexec_snoc, !tally_snoc. set (L := lexec w ticks opening) in *.
  destruct IH as (I1 & I2 & I3).
  ledger_step w L t;
    rewrite ?count_app, ?length_app, ?filter_app; unfold probe;
    cbn [count filter is_disconnect is_query is_probe List.length app];
    rewrite ?length_app; cbn [List.length];
    try match goal with
        | H : nth_error _ _ = Some _ |- _ =>
            pose proof (probes_remove_nth _ _ _ H) as Hp; cbn [is_probe] in Hp
        end;
    lia.
Qed.

Lemma ledger_quiet (w : world) (ticks : list tick) :
  tally is_signal ticks = 0%nat ->
  ended (lexec w ticks opening) = None /\
  count is_unhandled (grown (lexec w ticks opening)) = 0%nat /\
  count is_exit (grown (lexec w ticks opening)) = 0%nat /\
  Forall (eq Probe) (waiting (lexec w ticks opening)).
Proof.
  induction ticks as [|t ticks IH] using rev_ind; [intros _; repeat split; constructor|].
  rewrite lexec_snoc, tally_snoc. set (L := lexec w ticks opening) in *.
  intros H.
  assert (H0 : tally is_signal ticks = 0%nat) by lia.
  destruct (IH H0) as (I1 & I2 & I3 & I4).
  assert (Hr : forall i, nth_error (waiting L) i <> Some Release).
  { intros i Hi. apply nth_error_In in Hi.
    pose proof (proj1 (Forall_forall _ _) I4 _ Hi). discriminate. }
  revert H. ledger_step w L t; intros H; try congruence;
    try (exfalso; eapply Hr; eassumption);
    try (cbn in H; lia);
    rewrite ?count_app, ?I2, ?I3; cbn [count filter is_unhandled is_exit List.length];
    repeat split; auto;
    try (apply Forall_app; split; [exact I4 | repeat constructor]);
    try (apply Forall_remove_nth; exact I4).
Qed.

Lemma ledger_ending (w : world) (ticks : list tick) :
  match ended (lexec w ticks opening) with
  | None => count is_exit (grown (lexec w ticks opening)) = 0%nat
  | Some c =>
      exists (before : list event) (last : event),
        grown (lexec w ticks opening) = before ++ [last] /\
        count is_exit before = 0%nat /\
        ((c = 0 /\ last = ProcessExit 0) \/
         (c = 1 /\ on_unhandled w = Crash /\ exists e, last = UnhandledRejection e))
  end.
Proof.
  induction ticks as [|t ticks IH] using rev_ind; [reflexivity|].
  rewrite lexec_snoc. set (L := lexec w ticks opening) in *.
  unfold lstep. destruct (ended L) eqn:E; [rewrite E; exact IH|].
  destruct t as [sg | [|] | i s]; cbn [ended grown];
    rewrite ?count_app, ?IH; try reflexivity.
  destruct (nth_error (waiting L) i) as [[|]|] eqn:Hn; cbn [ended grown].
  - rewrite count_app, IH. destruct s; reflexivity.
  - destruct s as [|e]; [|destruct (on_unhandled w) eqn:Hp]; cbn [ended grown].
    + exists (grown L), (ProcessExit 0). auto.
    + exists (grown L), (UnhandledRejection e). repeat split; eauto.
    + rewrite count_app, IH. reflexivity.
  - rewrite E. exact IH.
Qed.

Lemma ledger_no_fulfilment (w : world) (ticks : list tick) :
  on_unhandled w = Warn ->
  tally is_fulfilment ticks = 0%nat ->
  ended (lexec w ticks opening) = None.
Proof.
  intros Hp.
  induction ticks as [|t ticks IH] using rev_ind; [reflexivity|].
  rewrite lexec_snoc, tally_snoc. set (L := lexec w ticks opening) in *.
  intros H. assert (H0 : tally is_fulfilment ticks = 0%nat) by lia.
  specialize (IH H0). revert H.
  ledger_step w L t; intros H; try congruence; try reflexivity;
    cbn in H; lia.
Qed.

Lemma exec_after_exit (ticks : list tick) : forall P : process,
  exit_code P <> None -> exec ticks P = P.
Proof.
  induction ticks as [|t ticks IH]; intros P H; [reflexivity|].
  cbn [exec fold_left]. unfold step at 2.
  destruct (exit_code P) eqn:E; [|congruence].
  apply IH. congruence.
Qed.

Lemma exec_app (t1 t2 : list tick) (P : process) :
  exec (t1 ++ t2) P = exec t2 (exec t1 P).
Proof. unfold exec. apply fold_left_app. Qed.

Lemma lexec_app (w : world) (t1 t2 : list tick) (L : ledger) :
  lexec w (t1 ++ t2) L = lexec w t2 (lexec w t1 L).
Proof. unfold lexec. apply fold_left_app. Qed.

(** ** Executions of the event loop, whatever arrives *)

(** X1. As long as no termination signal arrives, nothing ends the
    process: however many requests come in and however their probes
    settle, the process is alive, no rejection is left unhandled and
    [process.exit] is not called. *)
Theorem database_failures_never_end_the_process
  (w : world) (ticks : list tick)
  (Hquiet : tally is_signal ticks = 0%nat) :
  exit_code (exec ticks (boot w)) = None /\
  count is_unhandled (events_since w (st (exec ticks (boot w)))) = 0%nat /\
  count is_exit (events_since w (st (exec ticks (boot w)))) = 0%nat.
Proof.
  destruct (exec_ledger w ticks) as (-> & _ & _ & ->).
  destruct (ledger_quiet w ticks Hquiet) as (H1 & H2 & H3 & _). auto.
Qed.

Lemma database_failures_never_end_the_process_witness :
  tally is_signal
    [Incoming GET_health; Incoming GET_health;
     Settle 1 (Rejected "connection refused"); Incoming GET_root;
     Settle 0 (Rejected "timeout")] = 0%nat /\
  exit_code
    (exec [Incoming GET_health; Incoming GET_health;
           Settle 1 (Rejected "connection refused"); Incoming GET_root;
           Settle 0 (Rejected "timeout")] (boot crashing_world)) = None.
Proof.
  split; [reflexivity|].
  exact (proj1 (database_failures_never_end_the_process crashing_world
    [Incoming GET_health; Incoming GET_health;
     Settle 1 (Rejected "connection refused"); Incoming GET_root;
     Settle 0 (Rejected "timeout")] eq_refl)).
Defined.

(** X3. While the process is alive, the release of the pool has been
    requested once for each signal delivered, no more and no less; in any
    case never more often than signals were delivered. *)
Theorem one_release_request_per_signal (w : world) (ticks : list tick)
  (Halive : exit_code (exec ticks (boot w)) = None) :
  count is_disconnect (events_since w (st (exec ticks (boot w))))
  = tally is_signal ticks.
Proof.
  destruct (exec_ledger w ticks) as (E1 & _ & _ & E4).
  rewrite E1. rewrite E4 in Halive.
  apply (ledger_alive_counts w ticks Halive).
Qed.

Lemma one_release_request_per_signal_witness :
  exit_code (exec [Signal SIGTERM; Signal SIGINT; Signal SIGTERM]
                  (boot stuck_world)) = None /\
  count is_disconnect
    (events_since stuck_world
       (st (exec [Signal SIGTERM; Signal SIGINT; Signal SIGTERM]
                 (boot stuck_world)))) = 3%nat.
Proof.
  split; [reflexivity|].
  exact (one_release_request_per_signal stuck_world
           [Signal SIGTERM; Signal SIGINT; Signal SIGTERM] eq_refl).
Defined.

(** X4. While the process is alive, the database has been queried
    exactly once per health request received, each time with [SELECT 1]:
    no request is probed twice, a rejected probe is not retried, and the
    root endpoint and the shutdown handler send no query. *)
Theorem one_probe_per_health_request (w : world) (ticks : list tick)
  (Halive : exit_code (exec ticks (boot w)) = None) :
  filter is_query (events_since w (st (exec ticks (boot w))))
  = repeat (Requested (prisma_queryRaw "SELECT 1")) (tally is_health_request ticks).
Proof.
  destruct (exec_ledger w ticks) as (E1 & _ & _ & E4).
  rewrite E1. rewrite E4 in Halive.
  apply (ledger_alive_counts w ticks Halive).
Qed.

Lemma one_probe_per_health_request_witness :
  exit_code
    (exec [Incoming GET_health; Incoming GET_root; Signal SIGINT;
           Settle 0 (Rejected "timeout"); Incoming GET_health]
          (boot stuck_world)) = None /\
  filter is_query
    (events_since stuck_world
       (st (exec [Incoming GET_health; Incoming GET_root; Signal SIGINT;
                  Settle 0 (Rejected "timeout"); Incoming GET_health]
                 (boot stuck_world))))
  = [Requested (prisma_queryRaw "SELECT 1"); Requested (prisma_queryRaw "SELECT 1")].
Proof.
  split; [reflexivity|].
  exact (one_probe_per_health_request stuck_world
           [Incoming GET_health; Incoming GET_root; Signal SIGINT;
            Settle 0 (Rejected "timeout"); Incoming GET_health] eq_refl).
Defined.

(** X6. The process ends in two ways only: by the [process.exit(0)] of
    [shutdown], which is then the last event and the only exit, or, where
    unhandled rejections crash, with code 1 on a rejection that is then
    the last event. Otherwise it is alive and has called no exit. *)
Theorem process_ends_by_exit_0_or_crash (w : world) (ticks : list tick) :
  (exit_code (exec ticks (boot w)) = None /\
   count is_exit (events_since w (st (exec ticks (boot w)))) = 0%nat)
  \/
  (exists before : list event,
     exit_code (exec ticks (boot w)) = Some 0 /\
     events_since w (st (exec ticks (boot w))) = before ++ [ProcessExit 0] /\
     count is_exit before = 0%nat)
  \/
  (exists (before : list event) (e : error),
     exit_code (exec ticks (boot w)) = Some 1 /\
     on_unhandled w = Crash /\
     events_since w (st (exec ticks (boot w))) = before ++ [UnhandledRejection e] /\
     count is_exit before = 0%nat).
Proof.
  destruct (exec_ledger w ticks) as (-> & _ & _ & ->).
  pose proof (ledger_ending w ticks) as H.
  destruct (ended (lexec w ticks opening)) as [c|]; [|left; auto].
  destruct H as (before & last & Hg & Hc & [[-> ->] | (-> & Hp & e & ->)]).
  - right; left. eauto.
  - right; right. exists before, e. auto.
Qed.

(** X7. While the process is alive every handler started is accounted
    for exactly once: it has written its response, or is suspended, or
    ended in an unhandled rejection. *)
Theorem every_handler_is_accounted_for (w : world) (ticks : list tick)
  (Halive : exit_code (exec ticks (boot w)) = None) :
  (List.length (sent (st (exec ticks (boot w))))
   + List.length (parked (exec ticks (boot w)))
   + count is_unhandled (events_since w (st (exec ticks (boot w))))
   = tally is_incoming ticks + tally is_signal ticks)%nat.
Proof.
  destruct (exec_ledger w ticks) as (E1 & E2 & E3 & E4).
  rewrite E1, E2, E3. rewrite E4 in Halive.
  apply (ledger_alive_counts w ticks Halive).
Qed.

Lemma every_handler_is_accounted_for_witness :
  exit_code
    (exec [Incoming GET_health; Incoming GET_root; Signal SIGINT;
           Settle 1 (Rejected "pool is busy"); Incoming GET_health;
           Settle 0 Fulfilled]
          (boot stuck_world)) = None /\
  (List.length (sent (st
     (exec [Incoming GET_health; Incoming GET_root; Signal SIGINT;
            Settle 1 (Rejected "pool is busy"); Incoming GET_health;
            Settle 0 Fulfilled]
           (boot stuck_world))))
   + List.length (parked
     (exec [Incoming GET_health; Incoming GET_root; Signal SIGINT;
            Settle 1 (Rejected "pool is busy"); Incoming GET_health;
            Settle 0 Fulfilled]
           (boot stuck_world)))
   + count is_unhandled (events_since stuck_world (st
     (exec [Incoming GET_health; Incoming GET_root; Signal SIGINT;
            Settle 1 (Rejected "pool is busy"); Incoming GET_health;
            Settle 0 Fulfilled]
           (boot stuck_world))))
   = 4)%nat.
Proof.
  split; [reflexivity|].
  exact (every_handler_is_accounted_for stuck_world
    [Incoming GET_health; Incoming GET_root; Signal SIGINT;
     Settle 1 (Rejected "pool is busy"); Incoming GET_health;
     Settle 0 Fulfilled] eq_refl).
Defined.

(** X8. The server never does more than it was asked: in every
    execution, no more responses than requests received, no more release
    requests than signals delivered, no more queries than health requests
    received. *)
Theorem never_more_than_asked (w : world) (ticks : list tick) :
  (List.length (sent (st (exec ticks (boot w)))) <= tally is_incoming ticks)%nat /\
  (count is_disconnect (events_since w (st (exec ticks (boot w))))
   <= tally is_signal ticks)%nat /\
  (count is_query (events_since w (st (exec ticks (boot w))))
   <= tally is_health_request ticks)%nat.
Proof.
  destruct (exec_ledger w ticks) as (-> & -> & _).
  pose proof (ledger_bounds w ticks). lia.
Qed.

(** X9. Where an unhandled rejection only warns, signals cannot stop the
    process as long as no awaited promise is fulfilled: each signal
    requests the release again, each rejection is dropped, and the
    process stays alive. *)
Theorem signals_cannot_stop_while_release_fails
  (w : world) (ticks : list tick)
  (Hwarn : on_unhandled w = Warn)
  (Hfail : tally is_fulfilment ticks = 0%nat) :
  exit_code (exec ticks (boot w)) = None /\
  count is_disconnect (events_since w (st (exec ticks (boot w))))
  = tally is_signal ticks.
Proof.
  destruct (exec_ledger w ticks) as (-> & _ & _ & ->).
  pose proof (ledger_no_fulfilment w ticks Hwarn Hfail) as H.
  split; [exact H | apply (ledger_alive_counts w ticks H)].
Qed.

Lemma signals_cannot_stop_while_release_fails_witness :
  on_unhandled stuck_world = Warn /\
  tally is_fulfilment
    [Signal SIGTERM; Settle 0 (Rejected "pool is busy");
     Signal SIGINT; Settle 0 (Rejected "pool is busy")] = 0%nat /\
  exit_code
    (exec [Signal SIGTERM; Settle 0 (Rejected "pool is busy");
           Signal SIGINT; Settle 0 (Rejected "pool is busy")]
          (boot stuck_world)) = None.
Proof.
  split; [reflexivity | split; [reflexivity|]].
  exact (proj1 (signals_cannot_stop_while_release_fails stuck_world
    [Signal SIGTERM; Settle 0 (Rejected "pool is busy");
     Signal SIGINT; Settle 0 (Rejected "pool is busy")] eq_refl eq_refl)).
Defined.

Lemma nth_error_last {A : Type} (l : list A) (a : A) :
  nth_error (l ++ [a]) (List.length l) = Some a.
Proof. rewrite nth_error_app2, Nat.sub_diag by lia. reflexivity. Qed.






Lemma lstep_signal_released (w : world) (L : ledger) (sg : signal) :
  ended L = None ->
  lstep w (lstep w L (Signal sg)) (Settle (List.length (waiting L)) Fulfilled) =
  {| grown := (grown L ++ [Logged shutdown_banner; Requested prisma_disconnect])
              ++ [ProcessExit 0];
     waiting := []; written := written L; ended := Some 0 |}.
Proof.
  intros H. unfold lstep at 2. rewrite H. unfold lstep.
  cbn [ended waiting grown written]. now rewrite nth_error_last.
Qed.

(** X5. Shutdown does not drain. In any state the process can reach
    while alive, however many handlers wait for their probe, a signal
    whose release of the pool is fulfilled ends the process with code 0
    at once: no response is written for the requests in flight, the
    handlers that waited are dropped, and nothing that arrives later is
    answered. *)
Theorem shutdown_does_not_drain
  (w : world) (ticks more : list tick) (sg : signal)
  (Halive : exit_code (exec ticks (boot w)) = None) :
  exit_code
    (exec (ticks ++ [Signal sg;
                     Settle (List.length (parked (exec ticks (boot w)))) Fulfilled]
                 ++ more) (boot w)) = Some 0 /\
  sent (st
    (exec (ticks ++ [Signal sg;
                     Settle (List.length (parked (exec ticks (boot w)))) Fulfilled]
                 ++ more) (boot w)))
  = sent (st (exec ticks (boot w))) /\
  parked
    (exec (ticks ++ [Signal sg;
                     Settle (List.length (parked (exec ticks (boot w)))) Fulfilled]
                 ++ more) (boot w)) = [].
Proof.
  destruct (exec_ledger w ticks) as (_ & E2 & E3 & E4).
  rewrite E4 in Halive. rewrite E2, E3.
  pose proof (exec_ledger w
    (ticks ++ [Signal sg;
               Settle (List.length (waiting (lexec w ticks opening))) Fulfilled]))
    as (_ & F2 & F3 & F4).
  rewrite lexec_app in F2, F3, F4.
  change (lexec w [Signal sg;
                   Settle (List.length (waiting (lexec w ticks opening))) Fulfilled]
                (lexec w ticks opening))
    with (lstep w (lstep w (lexec w ticks opening) (Signal sg))
                (Settle (List.length (waiting (lexec w ticks opening))) Fulfilled))
    in F2, F3, F4.
  rewrite (lstep_signal_released w _ sg Halive) in F2, F3, F4.
  cbn [written waiting ended List.length] in F2, F3, F4.
  apply length_zero_iff_nil in F3.
  rewrite app_assoc, exec_app.
  rewrite exec_after_exit by (rewrite F4; discriminate).
  auto.
Qed.

Lemma shutdown_does_not_drain_witness :
  exit_code (exec [Incoming GET_health; Incoming GET_health] (boot crashing_world))
  = None /\
  List.length (parked (exec [Incoming GET_health; Incoming GET_health]
                            (boot crashing_world))) = 2%nat /\
  sent (st (exec ([Incoming GET_health; Incoming GET_health]
                  ++ [Signal SIGTERM; Settle 2 Fulfilled]
                  ++ [Settle 0 Fulfilled; Settle 1 Fulfilled; Incoming GET_root])
                 (boot crashing_world))) = [].
Proof.
  split; [reflexivity | split; [reflexivity|]].
  exact (proj1 (proj2
    (shutdown_does_not_drain crashing_world
       [Incoming GET_health; Incoming GET_health]
       [Settle 0 Fulfilled; Settle 1 Fulfilled; Incoming GET_root]
       SIGTERM eq_refl))).
Defined.

(** ** The port, from the environment to the banner *)

Lemma Number_toString_not_empty (n : Z) : Number_toString (Int n) <> "".
Proof.
  unfold Number_toString. destruct (n <? 0) eqn:E; [discriminate|].
  apply Z.ltb_ge in E. unfold decimal.
  destruct (decimal_fuel_head (Z.to_nat (Z.log2 n)) n "" E) as (d & r & _ & ->).
  discriminate.
Qed.

(** X11. [PORT] reads back the decimal numeral of any integer, negative
    ones and ones above 65535 included: the program checks no range
    before it hands the port to [app.listen]. *)
Theorem PORT_reads_back_any_integer (n : Z)
  (Hsafe : Z.abs n <= 9007199254740992) :
  PORT (Some (Number_toString (Int n))) = Int n.
Proof.
  unfold PORT. rewrite or_else_set by apply Number_toString_not_empty.
  apply parseInt_Number_toString.
Qed.

Lemma PORT_reads_back_any_integer_witness :
  Z.abs 70000 <= 9007199254740992 /\
  PORT (Some "70000") = Int 70000 /\
  PORT (Some "-1") = Int (-1).
Proof.
  assert (H1 : Z.abs 70000 <= 9007199254740992) by discriminate.
  assert (H2 : Z.abs (-1) <= 9007199254740992) by discriminate.
  split; [exact H1 | split].
  - exact (PORT_reads_back_any_integer 70000 H1).
  - exact (PORT_reads_back_any_integer (-1) H2).
Defined.

(** X12. White space before the numeral and any text after it that does
    not start with a digit are ignored: [PORT] is the numeral's value, and
    no error is raised for the extra text. *)
Theorem PORT_ignores_spaces_and_trailing_text (ws tail : string) (n : Z)
  (Hn : 0 <= n <= 9007199254740992)
  (Hws : all_white_space ws = true)
  (Htail : no_digit_ahead tail = true) :
  PORT (Some (ws ++ decimal n ++ tail)%string) = Int n.
Proof.
  unfold PORT.
  assert (Hne : (ws ++ decimal n ++ tail)%string <> "").
  { destruct ws; [apply decimal_not_empty; lia | discriminate]. }
  rewrite or_else_set by exact Hne.
  assert (T : trim_start (ws ++ decimal n ++ tail)%string
              = trim_start (decimal n ++ tail)%string)
    by (apply trim_start_white_space; exact Hws).
  pose proof (parseInt_decimal_then n tail ltac:(lia) Htail) as H.
  unfold parseInt in *. rewrite T. exact H.
Qed.

Lemma PORT_ignores_spaces_and_trailing_text_witness :
  0 <= 3000 <= 9007199254740992 /\
  all_white_space "  " = true /\
  no_digit_ahead "/tcp" = true /\
  PORT (Some "  3000/tcp") = Int 3000.
Proof.
  assert (H : 0 <= 3000 <= 9007199254740992) by (split; discriminate).
  split; [exact H | split; [reflexivity | split; [reflexivity|]]].
  exact (PORT_ignores_spaces_and_trailing_text "  " "/tcp" 3000 H eq_refl eq_refl).
Defined.

(** X13. Once the server listens on a port [n] given in [PORT] by its
    numeral, the start-up callback logs three lines and does nothing
    else: the banner and the two addresses, which repeat the numeral as
    it was given. *)
Theorem listening_announces_the_port (w : world) (n : Z)
  (Hport : 0 <= n <= 65535) :
  is_port (PORT (Some (decimal n))) = true /\
  run (listening (PORT (Some (decimal n)))) {| env := w; sent := [] |} =
  ({| env := logged
               [ Logged (newline ++ "🚀 API Server")%string;
                 Logged ("🌐 HTTP: http://0.0.0.0:" ++ decimal n)%string;
                 Logged ("💚 Health: http://0.0.0.0:" ++ decimal n
                         ++ "/health" ++ newline)%string ] w;
      sent := [] |}, Returned tt).
Proof.
  assert (E : PORT (Some (decimal n)) = Int n).
  { pose proof (PORT_numeral n ltac:(lia)) as H. exact H. }
  rewrite E. split.
  - cbn [is_port]. apply andb_true_iff. split; apply Z.leb_le; lia.
  - unfold listening, Number_toString.
    replace (n <? 0) with false by (symmetry; apply Z.ltb_ge; lia).
    destruct w as [db rel up clk pol hist].
    cbn -[decimal append]. unfold record, logged.
    cbn -[decimal append]. rewrite <- !app_assoc. reflexivity.
Qed.

Lemma listening_announces_the_port_witness :
  0 <= 8080 <= 65535 /\
  events_since stuck_world
    (fst (run (listening (PORT (Some "8080"))) {| env := stuck_world; sent := [] |}))
  = [ Logged (newline ++ "🚀 API Server")%string;
      Logged "🌐 HTTP: http://0.0.0.0:8080";
      Logged ("💚 Health: http://0.0.0.0:8080/health" ++ newline)%string ].
Proof.
  assert (H : 0 <= 8080 <= 65535) by (split; discriminate).
  split; [exact H|].
  change (Some "8080") with (Some (decimal 8080)).
  rewrite (proj2 (listening_announces_the_port stuck_world 8080 H)).
  reflexivity.
Defined.

(** ** The timestamp of the health report *)

Lemma Day_four_digit_years (t : Z) :
  (-62167219200000 <=? t) && (t <=? 253402300799999)
  = (0 <=? year (civil_from_days (Day t)))
    && (year (civil_from_days (Day t)) <=? 9999).
Proof.
  unfold Day, msPerDay.
  pose proof (Z.div_mod t 86400000) as Hd.
  pose proof (Z.mod_pos_bound t 86400000) as Hm.
  destruct ((-62167219200000 <=? t) && (t <=? 253402300799999)) eqn:E.
  - apply andb_true_iff in E. destruct E as [E1 E2]. apply Z.leb_le in E1, E2.
    pose proof (civil_year_four_digits (t / 86400000) ltac:(lia)) as [H1 H2].
    symmetry. apply andb_true_iff. split; apply Z.leb_le; assumption.
  - apply andb_false_iff in E.
    assert (Hout : t / 86400000 < -719528 \/ 2932896 < t / 86400000).
    { destruct E as [E | E]; apply Z.leb_gt in E; lia. }
    pose proof (civil_year_expanded _ Hout) as Hy.
    symmetry. apply andb_false_iff.
    destruct Hy; [left | right]; apply Z.leb_gt; assumption.
Qed.

(** X14. The timestamp of a health report is 24 characters wide when the
    clock stands in the years 0000 to 9999, and 27 characters wide, with
    a signed six-digit year, outside. *)
Theorem health_timestamp_width (w : world) :
  exists (o : json) (ts : string),
    sent (fst (serve GET_health w)) = [ {| statusCode := 200; body := o |} ] /\
    get "timestamp" o = Some (JStr ts) /\
    String.length ts =
      if (-62167219200000 <=? ms (clock w)) && (ms (clock w) <=? 253402300799999)
      then 24%nat else 27%nat.
Proof.
  rewrite serve_health.
  destruct (database w); cbn [fst sent]; do 2 eexists;
    (split; [reflexivity|]); (split; [reflexivity|]);
    rewrite length_toISOString, Day_four_digit_years; reflexivity.
Qed.

(** ** Reading the timestamp back *)

Example fromISOString_reads :
  fromISOString "1970-01-01T00:00:00.000Z" = Some 0 /\
  fromISOString "2024-02-29T23:59:59.999Z" = Some 1709251199999 /\
  fromISOString "-271821-04-20T00:00:00.000Z" = Some (-8640000000000000) /\
  fromISOString "2024-02-29T23:59:59.999" = None.
Proof. repeat split; reflexivity. Qed.

Lemma days_from_civil_from_days (days : Z) :
  days_from_civil (civil_from_days days) = days.
Proof.
  unfold days_from_civil, civil_from_days. cbv zeta. cbn [year month date].
  set (z := days + 719468).
  pose proof (Z.div_mod z 146097) as Hz.
  pose proof (Z.mod_pos_bound z 146097) as Hz'.
  set (n400 := z / 146097) in *.
  set (d1 := z mod 146097) in *.
  assert (H1 : 0 <= d1 < 146097) by lia.
  pose proof (Z.div_mod d1 36524) as Hq.
  pose proof (Z.mod_pos_bound d1 36524) as Hq'.
  set (q100 := d1 / 36524) in *.
  set (n100 := Z.min q100 3).
  assert (Hn100 : 0 <= n100 <= 3) by (subst n100; lia).
  set (d2 := d1 - 36524 * n100).
  assert (H2 : 0 <= d2 <= 36524) by (subst d2 n100; lia).
  pose proof (Z.div_mod d2 1461) as Hr.
  pose proof (Z.mod_pos_bound d2 1461) as Hr'.
  set (n4 := d2 / 1461) in *.
  set (d3 := d2 mod 1461) in *.
  pose proof (Z.div_mod d3 365) as Hs.
  pose proof (Z.mod_pos_bound d3 365) as Hs'.
  set (q1 := d3 / 365) in *.
  set (n1 := Z.min q1 3).
  assert (Hn1 : 0 <= n1 <= 3) by (subst n1; lia).
  set (doy := d3 - 365 * n1).
  assert (Hdoy : 0 <= doy <= 365) by (subst doy n1; lia).
  pose proof (Z.div_mod (5 * doy + 2) 153) as Hm.
  pose proof (Z.mod_pos_bound (5 * doy + 2) 153) as Hm'.
  set (mp := (5 * doy + 2) / 153) in *.
  assert (Hmp : 0 <= mp <= 11) by lia.
  assert (Hn4 : 0 <= n4 <= 24) by lia.
  set (yoe := 100 * n100 + 4 * n4 + n1).
  assert (Hyoe : 0 <= yoe <= 399) by (subst yoe; lia).
  (* the year, counted from March, is recovered whatever the month *)
  assert (Hy : (if (if mp <? 10 then mp + 3 else mp - 9) <=? 2
                then (if (if mp <? 10 then mp + 3 else mp - 9) <=? 2
                      then 400 * n400 + 100 * n100 + 4 * n4 + n1 + 1
                      else 400 * n400 + 100 * n100 + 4 * n4 + n1) - 1
                else (if (if mp <? 10 then mp + 3 else mp - 9) <=? 2
                      then 400 * n400 + 100 * n100 + 4 * n4 + n1 + 1
                      else 400 * n400 + 100 * n100 + 4 * n4 + n1))
               = 400 * n400 + yoe).
  { destruct ((if mp <? 10 then mp + 3 else mp - 9) <=? 2); subst yoe; lia. }
  rewrite Hy.
  assert (Hmp' : (if (if mp <? 10 then mp + 3 else mp - 9) <=? 2
                  then (if mp <? 10 then mp + 3 else mp - 9) + 9
                  else (if mp <? 10 then mp + 3 else mp - 9) - 3) = mp).
  { destruct (mp <? 10) eqn:E1; [apply Z.ltb_lt in E1 | apply Z.ltb_ge in E1].
    - replace (mp + 3 <=? 2) with false by (symmetry; apply Z.leb_gt; lia). lia.
    - replace (mp - 9 <=? 2) with true by (symmetry; apply Z.leb_le; lia). lia. }
  rewrite Hmp'.
  assert (Hera : (400 * n400 + yoe) / 400 = n400).
  { symmetry. apply (Z.div_unique _ _ _ yoe); lia. }
  assert (Hyoe' : (400 * n400 + yoe) mod 400 = yoe).
  { symmetry. apply (Z.mod_unique _ _ n400); lia. }
  rewrite Hera, Hyoe'.
  assert (Hq4 : yoe / 4 = 25 * n100 + n4).
  { symmetry. apply (Z.div_unique _ _ _ n1); subst yoe; lia. }
  assert (Hq100' : yoe / 100 = n100).
  { symmetry. apply (Z.div_unique _ _ _ (4 * n4 + n1)); subst yoe; lia. }
  rewrite Hq4, Hq100'.
  subst yoe doy d2 z. lia.
Qed.

Lemma read_field_pad (w : nat) (n : Z) (sep : ascii) (rest : string) :
  0 <= n < 10 ^ Z.of_nat w ->
  read_field w sep (pad w n (String sep rest)) = Some (n, rest).
Proof.
  intros Hn. unfold read_field.
  replace w with (w + 0)%nat at 1 by lia.
  rewrite take_digits_pad by exact Hn. cbn [take_digits expect].
  rewrite Ascii.eqb_refl.
  replace (0 * 10 ^ Z.of_nat w + n) with n by lia. reflexivity.
Qed.

Lemma read_year_year_string (y : Z) (rest : string) :
  -999999 <= y <= 999999 ->
  read_year (year_string y (String "-" rest)) = Some (y, rest).
Proof.
  intros Hy. unfold year_string.
  destruct ((0 <=? y) && (y <=? 9999)) eqn:E.
  - apply andb_true_iff in E. destruct E as [E1 E2]. apply Z.leb_le in E1, E2.
    pose proof (read_field_pad 4 y "-" rest) as F.
    cbn [pad] in *. unfold read_year.
    pose proof (digit_not_sign (y / 10 / 10 / 10 mod 10)
                  ltac:(apply Z.mod_pos_bound; lia)) as Hs.
    apply orb_false_iff in Hs. destruct Hs as [Hp Hm]. rewrite Hp, Hm.
    apply F. cbn; lia.
  - unfold read_year. destruct (y <? 0) eqn:Neg.
    + apply Z.ltb_lt in Neg. change (Ascii.eqb "-" "+") with false.
      change (Ascii.eqb "-" "-") with true. cbn iota.
      rewrite read_field_pad by (cbn; lia). f_equal. f_equal. lia.
    + apply Z.ltb_ge in Neg. change (Ascii.eqb "+" "+") with true. cbn iota.
      rewrite read_field_pad by (cbn; lia). f_equal. f_equal. lia.
Qed.

Lemma time_recomposed (t : Z) :
  msPerDay * Day t + 3600000 * HourFromTime t + 60000 * MinFromTime t
  + 1000 * SecFromTime t + msFromTime t = t.
Proof.
  unfold Day, HourFromTime, MinFromTime, SecFromTime, msFromTime, msPerDay.
  pose proof (Z.div_mod t 1000 ltac:(lia)) as H0.
  pose proof (Z.div_mod (t / 1000) 60 ltac:(lia)) as H1.
  pose proof (Z.div_mod (t / 60000) 60 ltac:(lia)) as H2.
  pose proof (Z.div_mod (t / 3600000) 24 ltac:(lia)) as H3.
  replace (t / 1000 / 60) with (t / 60000) in H1
    by (rewrite Z.div_div by lia; reflexivity).
  replace (t / 60000 / 60) with (t / 3600000) in H2
    by (rewrite Z.div_div by lia; reflexivity).
  replace (t / 3600000 / 24) with (t / 86400000) in H3
    by (rewrite Z.div_div by lia; reflexivity).
  lia.
Qed.

Lemma fromISOString_toISOString (d : time_value) :
  fromISOString (toISOString d) = Some (ms d).
Proof.
  unfold toISOString, fromISOString.
  pose proof (civil_year _ (Day_range d)) as Hy.
  pose proof (civil_month_date (Day (ms d))) as [Hm Hd].
  pose proof (time_fields (ms d)) as (Hh & Hmi & Hs & Hms).
  rewrite read_year_year_string by exact Hy. cbn [opt_bind].
  repeat (rewrite read_field_pad
            by (try change (10 ^ Z.of_nat 2) with 100;
                try change (10 ^ Z.of_nat 3) with 1000; lia);
          cbn [opt_bind]).
  f_equal.
  replace {| year := year (civil_from_days (Day (ms d)));
             month := month (civil_from_days (Day (ms d)));
             date := date (civil_from_days (Day (ms d))) |}
    with (civil_from_days (Day (ms d)))
    by (destruct (civil_from_days (Day (ms d))); reflexivity).
  rewrite days_from_civil_from_days. apply time_recomposed.
Qed.

(** X15. The timestamp of a health report can be read back to the
    millisecond: decoded, it is the very time value of the clock, so two
    reports carry the same timestamp only for the same clock reading. *)
Theorem health_timestamp_reads_back (w : world) :
  exists (o : json) (ts : string),
    sent (fst (serve GET_health w)) = [ {| statusCode := 200; body := o |} ] /\
    get "timestamp" o = Some (JStr ts) /\
    fromISOString ts = Some (ms (clock w)).
Proof.
  rewrite serve_health.
  destruct (database w); cbn [fst sent]; do 2 eexists;
    (split; [reflexivity|]); (split; [reflexivity|]);
    apply fromISOString_toISOString.
Qed.
